(** * HyperX Cloud Flight S battery monitor: the device and battery life cycle

    A shallow embedding of [headset_interface.py]: the object
    [HyperXCloudFlightS] (its fields, [__init__], [bootstrap], [run] and
    [process_data]) and the Flask handler [battery_status].

    Modelling choices.
    - The instance attributes that are assigned once in [__init__] and never
      again ([debug], [update_delay], [invalidate_after]) form the record
      [config]; the attributes that change form the record [state].
    - [app.battery_status], the attribute of the Flask application that the
      HTTP handler reads, is the field [app_battery_status]; a missing
      attribute and the value [None] are both [None] (the handler treats them
      alike).
    - The calls into the operating system and into the [hid] library
      ([time.time], [hid.enumerate], [open_path], [write], [read]) take their
      results from an [env], the outcome the outside world gives during one
      operation.  A call either succeeds or raises an exception.
    - Python object identity of the [hid.device()] instances is a counter
      ([next_handle]): every instantiation yields a handle never seen before.
    - What the object does to the outside (device traffic, emitted events,
      armed timers) is recorded, newest first, in the field [log].
    - The method [emit] is inherited from the event-emitter library.  The
      call [emit('error', e)] is recorded in the log and, like the other
      calls into libraries, returns or raises as the [env] says: the
      library raises the exception of an [error] event that has no
      listener, and the program registers none, so the sample worlds below
      raise.  The event [battery_status] has no such rule: its [emit] is
      recorded and returns.
    - The timers run [bootstrap] on threads of their own and nothing locks
      the fields they share with [run].  [sys_step] takes a tick and an
      iteration of the loop each as a whole, so [reachable] describes the
      executions in which they do not overlap.  [fine_step] cuts the
      iteration at every statement that assigns a shared field and lets a
      tick run at each cut.  What is to hold however the threads
      interleave is stated of one call or one statement, started in an
      arbitrary state.
    - Clock readings and delays are integers (seconds).
    - Console output ([print]) is not modelled. *)

From Stdlib Require Import ZArith String List Bool Lia.
Import ListNotations.
Open Scope Z_scope.

(** ** Constants *)

Definition VENDOR_ID : Z := 2385.
Definition PRODUCT_ID : Z := 5866.
Definition USAGE_PAGE : Z := 65299.

(** The enum [CommandMeaning]: positions in a frame and the type marker. *)
Module CommandMeaning.
Definition position_info : nat := 3.
Definition position_battery : nat := 7.
Definition type_battery_status : Z := 2.
End CommandMeaning.

(** ** Exceptions, descriptors, effects *)

Inductive exn : Type :=
| OSError
| IndexError
| AttributeError
| OtherError (tag : nat).

Definition is_OSError (e : exn) : bool :=
  match e with OSError => true | _ => false end.

(** One dictionary of [hid.enumerate]: the keys the code reads. *)
Record device_info : Type := mk_device_info {
  usage_page : Z;
  usage : Z;
  path : string
}.

Definition handle : Type := nat.

Inductive effect : Type :=
| Enumerated (vendor product : Z)
| Opened (h : handle) (p : string) (r : option exn)
| Wrote (h : handle) (buf : list Z) (r : option exn)
| ReadFrom (h : handle) (max_length : Z)
| Emitted_battery_status (p : Z)
| Emitted_error (e : exn)
| Armed (delay : Z).

(** ** The object *)

Record config : Type := mk_config {
  debug : bool;
  update_delay : Z;
  invalidate_after : Z
}.

(** The defaults of [__init__]. *)
Definition default_config : config :=
  {| debug := false; update_delay := 300; invalidate_after := 1800 |}.

Record state : Type := mk_state {
  devices : list device_info;
  bootstrap_device : option handle;
  interval : option Z;
  battery_status : option Z;
  app_battery_status : option Z;
  last_battery_update_at : option Z;
  device_ready : bool;
  next_handle : nat;
  log : list effect
}.

Definition set_devices (v : list device_info) (s : state) : state :=
  mk_state v (bootstrap_device s) (interval s) (battery_status s)
    (app_battery_status s) (last_battery_update_at s) (device_ready s)
    (next_handle s) (log s).

Definition set_bootstrap_device (v : option handle) (s : state) : state :=
  mk_state (devices s) v (interval s) (battery_status s)
    (app_battery_status s) (last_battery_update_at s) (device_ready s)
    (next_handle s) (log s).

Definition set_interval (v : option Z) (s : state) : state :=
  mk_state (devices s) (bootstrap_device s) v (battery_status s)
    (app_battery_status s) (last_battery_update_at s) (device_ready s)
    (next_handle s) (log s).

Definition set_battery_status (v : option Z) (s : state) : state :=
  mk_state (devices s) (bootstrap_device s) (interval s) v
    (app_battery_status s) (last_battery_update_at s) (device_ready s)
    (next_handle s) (log s).

Definition set_app_battery_status (v : option Z) (s : state) : state :=
  mk_state (devices s) (bootstrap_device s) (interval s) (battery_status s)
    v (last_battery_update_at s) (device_ready s)
    (next_handle s) (log s).

Definition set_last_battery_update_at (v : option Z) (s : state) : state :=
  mk_state (devices s) (bootstrap_device s) (interval s) (battery_status s)
    (app_battery_status s) v (device_ready s)
    (next_handle s) (log s).

Definition set_device_ready (v : bool) (s : state) : state :=
  mk_state (devices s) (bootstrap_device s) (interval s) (battery_status s)
    (app_battery_status s) (last_battery_update_at s) v
    (next_handle s) (log s).

Definition set_next_handle (v : nat) (s : state) : state :=
  mk_state (devices s) (bootstrap_device s) (interval s) (battery_status s)
    (app_battery_status s) (last_battery_update_at s) (device_ready s)
    v (log s).

Definition record (e : effect) (s : state) : state :=
  mk_state (devices s) (bootstrap_device s) (interval s) (battery_status s)
    (app_battery_status s) (last_battery_update_at s) (device_ready s)
    (next_handle s) (e :: log s).

(** ** The outside world during one operation *)

Record env : Type := mk_env {
  now : Z;                                   (* time.time() *)
  hid_enumerate : list device_info;          (* hid.enumerate(VENDOR_ID, PRODUCT_ID) *)
  open_path : string -> option exn;          (* None: opened *)
  write : option exn;                        (* None: written *)
  read : exn + list Z;                       (* read(20) *)
  emit_error : exn -> option exn             (* emit('error', e); None: returned *)
}.

(** ** Computations: state passing with exceptions *)

Inductive res (A : Type) : Type :=
| Ok (a : A)
| Raise (e : exn).
Arguments Ok {A} a.
Arguments Raise {A} e.

Definition M (A : Type) : Type := state -> res A * state.

Definition ret {A} (a : A) : M A := fun s => (Ok a, s).

Definition bind {A B} (m : M A) (k : A -> M B) : M B :=
  fun s => match m s with
           | (Ok a, s1) => k a s1
           | (Raise e, s1) => (Raise e, s1)
           end.

Definition raise {A} (e : exn) : M A := fun s => (Raise e, s).
Definition gets {A} (f : state -> A) : M A := fun s => (Ok (f s), s).
Definition modify (f : state -> state) : M unit := fun s => (Ok tt, f s).

(** [try: body finally: fin]: [fin] runs whatever [body] did; the outcome is
    the one of [body] unless [fin] itself raises. *)
Definition try_finally {A} (body : M A) (fin : M unit) : M A :=
  fun s => match body s with
           | (r, s1) => match fin s1 with
                        | (Ok _, s2) => (r, s2)
                        | (Raise e, s2) => (Raise e, s2)
                        end
           end.

Declare Scope py_scope.
Delimit Scope py_scope with py.
Notation "x <- m ;; k" := (bind m (fun x => k))
  (at level 61, m at next level, right associativity) : py_scope.
Notation "m ;; k" := (bind m (fun _ => k))
  (at level 61, right associativity) : py_scope.
Open Scope py_scope.

(** ** The HTTP handler *)

Inductive reply : Type :=
| unknown
| percentage (p : Z).

(** [battery_status()] of the Flask application: the JSON field it answers. *)
Definition battery_status_route (s : state) : reply :=
  match app_battery_status s with
  | None => unknown
  | Some p => percentage p
  end.

(** ** [process_data] *)

(** [data[i]] for a list and a non-negative index. *)
Definition index (data : list Z) (i : nat) : M Z :=
  match nth_error data i with
  | Some b => ret b
  | None => raise IndexError
  end.

Definition option_Z_eqb (a b : option Z) : bool :=
  match a, b with
  | Some x, Some y => x =? y
  | None, None => true
  | _, _ => false
  end.

Definition process_data (t : Z) (data : list Z) : M unit :=
  info <- index data CommandMeaning.position_info ;;
  if info =? CommandMeaning.type_battery_status then
    previous_battery_status <- gets battery_status ;;
    b <- index data CommandMeaning.position_battery ;;
    modify (set_battery_status (Some b)) ;;
    current <- gets battery_status ;;
    if option_Z_eqb previous_battery_status current then
      modify (set_last_battery_update_at (Some t))
    else
      modify (record (Emitted_battery_status b)) ;;
      modify (set_app_battery_status (Some b)) ;;
      modify (set_last_battery_update_at (Some t))
  else ret tt.

(** ** [bootstrap] *)

Definition wake_buffer : list Z := 33 :: repeat 0 19.

(** The [for device in self.devices] loop, with its [continue] and [break]. *)
Fixpoint open_first (w : env) (ds : list device_info) : M unit :=
  match ds with
  | [] => ret tt
  | device :: rest =>
      if (usage_page device =? USAGE_PAGE) && (usage device =? 1) then
        h <- gets next_handle ;;
        modify (set_next_handle (S h)) ;;
        modify (set_bootstrap_device (Some h)) ;;
        modify (record (Opened h (path device) (open_path w (path device)))) ;;
        match open_path w (path device) with
        | None => ret tt
        | Some e =>
            if is_OSError e then
              modify (set_bootstrap_device None) ;;
              open_first w rest
            else raise e
        end
      else open_first w rest
  end.

Definition stale (c : config) (w : env) (s : state) : bool :=
  match last_battery_update_at s with
  | Some t => invalidate_after c <? now w - t
  | None => false
  end.

Definition invalidate : M unit :=
  modify (set_app_battery_status None) ;;
  modify (set_device_ready false) ;;
  modify (set_bootstrap_device None).

Definition discover (w : env) : M unit :=
  ds <- gets devices ;;
  (match ds with
   | [] =>
       modify (record (Enumerated VENDOR_ID PRODUCT_ID)) ;;
       modify (set_devices (hid_enumerate w))
   | _ :: _ => ret tt
   end) ;;
  ds <- gets devices ;;
  open_first w ds.

Definition wake (w : env) (h : handle) : M unit :=
  modify (record (Wrote h wake_buffer (write w))) ;;
  match write w with
  | None => modify (set_device_ready true)
  | Some e =>
      if is_OSError e then ret tt
      else
        modify (record (Emitted_error e)) ;;
        match emit_error w e with
        | None => ret tt
        | Some e' => raise e'
        end
  end.

Definition bootstrap_body (c : config) (w : env) : M unit :=
  is_stale <- gets (stale c w) ;;
  (if is_stale then invalidate else ret tt) ;;
  dev <- gets bootstrap_device ;;
  (match dev with
   | None => discover w
   | Some _ => ret tt
   end) ;;
  dev <- gets bootstrap_device ;;
  match dev with
  | None => ret tt
  | Some h =>
      ready <- gets device_ready ;;
      if ready then ret tt else wake w h
  end.

Definition rearm (c : config) : M unit :=
  modify (set_interval (Some (update_delay c))) ;;
  modify (record (Armed (update_delay c))).

Definition bootstrap (c : config) (w : env) : M unit :=
  try_finally (bootstrap_body c w) (rearm c).

(** ** [__init__] *)

Definition blank : state :=
  mk_state [] None None None None None false 0%nat [].

Definition init (c : config) (w0 w : env) : M unit :=
  modify (record (Enumerated VENDOR_ID PRODUCT_ID)) ;;
  modify (set_devices (hid_enumerate w0)) ;;
  bootstrap c w.

(** ** [run] *)

(** The body of the loop from [try: data = self.bootstrap_device.read(20)]
    on. *)
Definition read_and_process (w : env) : M unit :=
  dev <- gets bootstrap_device ;;
  match dev with
  | None => raise AttributeError
  | Some h =>
      modify (record (ReadFrom h 20)) ;;
      match read w with
      | inl e =>
          if is_OSError e then
            modify (set_bootstrap_device None) ;;
            modify (set_device_ready false)
          else raise e
      | inr data =>
          match data with
          | [] => ret tt
          | _ :: _ => process_data (now w) data
          end
      end
  end.

(** Where the thread of [run] stands between two operations. *)
Inductive pc : Type :=
| AtFirstWait            (* in the [device_ready.wait()] before the loop *)
| AtLoopTop              (* at [while True] *)
| AtLoopWait             (* in the [device_ready.wait()] inside the loop *)
| Exited (e : exn).      (* an exception left [run] *)

Definition after (p : pc) (r : res unit * state) : pc * state :=
  match r with
  | (Ok _, s) => (p, s)
  | (Raise e, s) => (Exited e, s)
  end.

(** The part of an iteration that follows the [wait()] inside the loop. *)
Definition resume (wr : env) (s : state) : pc * state :=
  if device_ready s then after AtLoopTop (read_and_process wr s)
  else (AtLoopWait, s).

(** One move of the thread of [run]: a wait that returns (or keeps
    blocking), or one iteration of the loop up to its next wait. *)
Definition run_step (c : config) (wb wr : env) (p : pc) (s : state) : pc * state :=
  match p with
  | AtFirstWait => if device_ready s then (AtLoopTop, s) else (AtFirstWait, s)
  | AtLoopWait => resume wr s
  | AtLoopTop =>
      match bootstrap_device s with
      | None =>
          match bootstrap c wb s with
          | (Ok _, s1) => resume wr s1
          | (Raise e, s1) => (Exited e, s1)
          end
      | Some _ => after AtLoopTop (read_and_process wr s)
      end
  | Exited e => (Exited e, s)
  end.

(** ** The whole process: timer ticks interleaved with the thread of [run]

    Ticks and iterations are taken one at a time here, each as a whole. *)

Inductive input : Type :=
| Tick (w : env)              (* the timer fires: [bootstrap] on its thread *)
| Loop (wb wr : env).         (* the thread of [run] moves *)

Definition sys_step (c : config) (i : input) (ps : pc * state) : pc * state :=
  match i with
  | Tick w => (fst ps, snd (bootstrap c w (snd ps)))
  | Loop wb wr => run_step c wb wr (fst ps) (snd ps)
  end.

Definition sys_run (c : config) (inputs : list input) (ps : pc * state) : pc * state :=
  fold_left (fun acc i => sys_step c i acc) inputs ps.

(** [__main__]: construct the object, then [run]. *)
Definition start (c : config) (w0 w : env) : pc * state :=
  after AtFirstWait (init c w0 w blank).

Definition reachable (c : config) (ps : pc * state) : Prop :=
  exists (w0 w : env) (inputs : list input),
    ps = sys_run c inputs (start c w0 w).

(** ** States and predicates the properties speak about *)

(** The state a battery frame with a differing reading [b] leaves. *)
Definition reading_changed (t b : Z) (s : state) : state :=
  set_last_battery_update_at (Some t)
    (set_app_battery_status (Some b)
       (record (Emitted_battery_status b)
          (set_battery_status (Some b) s))).

(** The state a battery frame with the cached reading leaves. *)
Definition reading_kept (t : Z) (s : state) : state :=
  set_last_battery_update_at (Some t) s.

(** A frame the decoder has no use for: another type marker at offset 3
    (or none), or too short to hold the battery byte. *)
Definition malformed (f : list Z) : Prop :=
  nth_error f CommandMeaning.position_info
    <> Some CommandMeaning.type_battery_status
  \/ (length f < 8)%nat.

(** ** Sample frames and outcomes *)

(** A 20-byte frame with type marker [m] and battery byte [b]. *)
Definition sample_frame (m b : Z) : list Z :=
  [0; 0; 0; m; 0; 0; 0; b] ++ repeat 0 12.

(** The headset's telemetry interface and another interface of the same
    product. *)
Definition telemetry : device_info := mk_device_info USAGE_PAGE 1 "path-1".
Definition keyboard : device_info := mk_device_info 12 1 "path-0".

(** The world at time [t]: enumeration finds both interfaces, opening
    answers [o], the wake write answers [wr], the read answers [rd]. *)
Definition world (t : Z) (o : option exn) (wr : option exn)
    (rd : exn + list Z) : env :=
  mk_env t [keyboard; telemetry] (fun _ => o) wr rd (fun e => Some e).

(** The device answers every call; reads time out. *)
Definition calm (t : Z) : env := world t None None (inr []).

(** ** What [bootstrap] leaves behind *)

(** The staleness branch of [bootstrap]. *)
Definition invalidated (s : state) : state :=
  set_bootstrap_device None
    (set_device_ready false (set_app_battery_status None s)).

(** The [finally] block of [bootstrap]. *)
Definition rearmed (c : config) (s : state) : state :=
  record (Armed (update_delay c)) (set_interval (Some (update_delay c)) s).

(** The effects of a search: openings of handles created during it
    (numbered from [lo] up to [hi]) and, where [fresh] allows, enumerations. *)
Definition searching (fresh : bool) (lo hi : nat) (e : effect) : Prop :=
  match e with
  | Enumerated _ _ => fresh = true
  | Opened h _ _ => (lo <= h < hi)%nat
  | _ => False
  end.

(** The number of enumerations among some effects. *)
Definition enumerations (l : list effect) : nat :=
  length (filter (fun e => match e with Enumerated _ _ => true | _ => false end) l).

(** A search started in [s] ended in [s'] with result [r]. *)
Record searched (fresh : bool) (s : state) (r : res unit) (s' : state) : Prop := mk_searched {
  sd_interval : interval s' = interval s;
  sd_battery : battery_status s' = battery_status s;
  sd_app : app_battery_status s' = app_battery_status s;
  sd_last : last_battery_update_at s' = last_battery_update_at s;
  sd_ready : device_ready s' = device_ready s;
  sd_next : (next_handle s <= next_handle s')%nat;
  sd_log : exists d,
      log s' = d ++ log s
      /\ Forall (searching fresh (next_handle s) (next_handle s')) d
      /\ (forall e, r = Raise e ->
          is_OSError e = false /\ exists h p, In (Opened h p (Some e)) d);
  sd_device : bootstrap_device s' = None
              \/ exists h, bootstrap_device s' = Some h
                           /\ (next_handle s <= h < next_handle s')%nat
}.

Definition is_nil {A} (l : list A) : bool :=
  match l with [] => true | _ :: _ => false end.

(** The state the wake attempt on handle [h] leaves. *)
Definition woke (w : env) (h : handle) (s : state) : state :=
  let s1 := record (Wrote h wake_buffer (write w)) s in
  match write w with
  | None => set_device_ready true s1
  | Some e => if is_OSError e then s1 else record (Emitted_error e) s1
  end.

(** The result of the wake attempt: an exception only when the write failed
    with something other than [OSError] and [emit] raised in turn. *)
Definition wake_result (w : env) : res unit :=
  match write w with
  | None => Ok tt
  | Some e =>
      if is_OSError e then Ok tt
      else match emit_error w e with
           | None => Ok tt
           | Some e' => Raise e'
           end
  end.

(** The end of [bootstrap]'s body, from the second test of the handle on. *)
Definition settle (w : env) (s : state) : res unit * state :=
  match bootstrap_device s with
  | None => (Ok tt, s)
  | Some h => if device_ready s then (Ok tt, s)
              else (wake_result w, woke w h s)
  end.

(** ** The readiness invariant *)

(** The wake command was written to handle [h] without error. *)
Definition woken (h : handle) (l : list effect) : Prop :=
  In (Wrote h wake_buffer None) l.

Definition no_write (e : effect) : Prop :=
  match e with Wrote _ _ _ => False | _ => True end.

Record ready_inv (s : state) : Prop := mk_ready_inv {
  ri_wrote : forall h buf r,
      In (Wrote h buf r) (log s) -> (h < next_handle s)%nat;
  ri_handle : forall h,
      bootstrap_device s = Some h -> (h < next_handle s)%nat;
  ri_ready : device_ready s = true
             <-> exists h, bootstrap_device s = Some h /\ woken h (log s)
}.

(** The effects of the wake attempt on handle [h], newest first. *)
Definition wake_effects (w : env) (h : handle) : list effect :=
  match write w with
  | None => [Wrote h wake_buffer None]
  | Some e =>
      if is_OSError e then [Wrote h wake_buffer (Some e)]
      else [Emitted_error e; Wrote h wake_buffer (Some e)]
  end.

(** [bootstrap]'s body after the staleness test, started in [s], ended in
    [s'] with result [r]: the battery fields are untouched, the effects are
    those of a search ([ds]) followed by at most one wake attempt ([dw]),
    and an exception that escapes was raised by an opening or by [emit]. *)
Record acquired (w : env) (s : state) (r : res unit) (s' : state) : Prop :=
  mk_acquired {
  aq_interval : interval s' = interval s;
  aq_battery : battery_status s' = battery_status s;
  aq_app : app_battery_status s' = app_battery_status s;
  aq_last : last_battery_update_at s' = last_battery_update_at s;
  aq_devices : devices s <> [] -> devices s' = devices s;
  aq_log : exists ds dw,
      log s' = dw ++ ds ++ log s
      /\ Forall (searching (is_nil (devices s))
                   (next_handle s) (next_handle s')) ds
      /\ (bootstrap_device s <> None -> ds = [])
      /\ (dw = []
          \/ exists h, bootstrap_device s' = Some h
                       /\ dw = wake_effects w h /\ r = wake_result w)
      /\ (forall e, r = Raise e ->
          (is_OSError e = false /\ dw = []
           /\ exists h p, In (Opened h p (Some e)) ds)
          \/ (exists h e0, dw = wake_effects w h
                           /\ write w = Some e0 /\ is_OSError e0 = false
                           /\ emit_error w e0 = Some e))
}.

(** The state a read that failed with [OSError] on handle [h] leaves. *)
Definition dropped (h : handle) (s : state) : state :=
  set_device_ready false
    (set_bootstrap_device None (record (ReadFrom h 20) s)).

(** ** Sample runs *)

(** The process right after start-up with the headset plugged in. *)
Definition plugged_in : pc * state :=
  start default_config (calm 0) (calm 0).

(** Start-up with the headset plugged in, its wake write failing. *)
Definition wake_failed : pc * state :=
  start default_config (calm 0) (world 0 None (Some OSError) (inr [])).

(** A battery frame with reading [b] arrives at time [t]. *)
Definition frame_at (t b : Z) : input :=
  Loop (calm t) (world t None None (inr (sample_frame 2 b))).

(** The headset reports 45 at time 2, ... *)
Definition reported_45 : pc * state :=
  sys_run default_config [Loop (calm 1) (calm 1); frame_at 2 45] plugged_in.

(** ... nothing arrives for more than 1800 s and the timer fires, ... *)
Definition gone_stale : pc * state :=
  sys_step default_config (Tick (calm 1803)) reported_45.

(** ... then the headset reports 45 again. *)
Definition reported_45_again : pc * state :=
  sys_step default_config (frame_at 1804 45) gone_stale.

(** Unplugging and staleness in one run: the loop starts, a read fails, the
    loop re-opens the device, a frame arrives, the reading goes stale. *)
Definition eventful : list input :=
  [Loop (calm 1) (calm 1);
   Loop (calm 5) (world 5 None None (inl OSError));
   Loop (calm 6) (calm 6);
   frame_at 7 45;
   Tick (calm 2000)].

(** A tick in state [s] searches: the reading is stale or there is no
    handle. *)
Definition searches (c : config) (w : env) (s : state) : bool :=
  stale c w s || match bootstrap_device s with None => true | Some _ => false end.

(** ** Further notions: the search, the timers, the served reading *)

(** The test of the loop over the descriptors: the telemetry interface. *)
Definition matching (d : device_info) : bool :=
  (usage_page d =? USAGE_PAGE) && (usage d =? 1).

(** A descriptor the search passes over: not the telemetry interface, or
    one whose opening raises [OSError]. *)
Definition refused (w : env) (d : device_info) : Prop :=
  matching d = true ->
  exists e, open_path w (path d) = Some e /\ is_OSError e = true.

(** The number of timers armed among some effects. *)
Definition armed_timers (l : list effect) : nat :=
  length (filter (fun e => match e with Armed _ => true | _ => false end) l).

(** The number of reads among some effects. *)
Definition reads (l : list effect) : nat :=
  length (filter (fun e => match e with ReadFrom _ _ => true | _ => false end) l).

(** Timer ticks only, one after the other. *)
Definition ticks (c : config) (ws : list env) (s : state) : state :=
  fold_left (fun acc w => snd (bootstrap c w acc)) ws s.


(** How a search over the descriptors [ds] ended: result [r] of
    [bootstrap], handle [dev] and effects [l] afterwards; [found] is the
    result when an opening succeeded (the search itself then ends normally,
    and [bootstrap] goes on to the wake write unless readiness is set). *)
Inductive search_outcome (w : env) (ds : list device_info) (found : res unit)
    (r : res unit) (dev : option handle) (l : list effect) : Prop :=
| NotFound :
    Forall (refused w) ds ->
    r = Ok tt -> dev = None ->
    search_outcome w ds found r dev l
| Found (pre post : list device_info) (d : device_info) (h : handle) :
    ds = pre ++ d :: post ->
    Forall (refused w) pre ->
    matching d = true ->
    open_path w (path d) = None ->
    r = found -> dev = Some h ->
    In (Opened h (path d) None) l ->
    search_outcome w ds found r dev l
| Broken (pre post : list device_info) (d : device_info) (h : handle)
    (e : exn) :
    ds = pre ++ d :: post ->
    Forall (refused w) pre ->
    matching d = true ->
    open_path w (path d) = Some e ->
    is_OSError e = false ->
    r = Raise e -> dev = Some h ->
    In (Opened h (path d) (Some e)) l ->
    search_outcome w ds found r dev l.

(** The result of [bootstrap] after a successful opening: the one of the
    wake attempt, or a plain return when readiness is set (and the reading
    is not stale, or the tick would have cleared it). *)
Definition after_opening (c : config) (w : env) (s : state) : res unit :=
  if negb (stale c w s) && device_ready s then Ok tt else wake_result w.

(** * The window helper and the tray icon client

    [hide_window] is in both programs; the rest of this part embeds
    [show_headset_battery.py]: [create_image], [update_icon],
    [get_battery_level] and one round of the loop [update] inside [setup].

    Modelling choices.
    - [EnumWindows] calls the handler once for every top-level window, in
      the order of the list [windows]; a window is its handle and the text
      [GetWindowText] returns for it.
    - The HTTP request ends in one of three ways: [requests.get] or
      [res.json()] raises (a refused connection raises
      [requests.exceptions.ConnectionError], a body that is not JSON a
      subclass of [ValueError]), or [res.json()] returns a JSON value:
      null, a boolean, an integer, a float, a string, a list or a
      dictionary.  An exception stands for its class as the [except] clause
      sees it: a subclass of a caught class is that class.
    - A float is [m * 2^e], an infinity or a NaN (the JSON decoder returns
      all three).
    - Python's conversion [int] of a string is a parameter ([int_of_str],
      [None] for [ValueError]).
    - The font machinery of the imaging library is a parameter ([pil]):
      whether [ImageFont.truetype] loads a size (it raises [IOError]
      otherwise) and the bounding box [textbbox] measures.  [Image.new]
      refuses a negative width or height with [ValueError].
    - The parameter [charge_level] is an integer, as at every call site.
    - The quotients [/] of [create_image] are kept as written (numerator
      and denominator), not evaluated.
    - [winsound.MessageBeep] is counted; console output and the sleep
      between two rounds are not modelled. *)

From Stdlib Require Import DecimalString.

(** ** [hide_window] *)

Record window : Type := mk_window {
  hwnd : Z;
  window_text : string
}.

Inductive show_command : Type :=
| SW_HIDE
| SW_SHOW.

(** [sub in s] for two strings. *)
Definition contains (sub s : string) : bool :=
  match String.index 0 sub s with
  | Some _ => true
  | None => false
  end.

(** The handler: its state is the nonlocal [program_hwnd] and the calls of
    [ShowWindow] made so far, oldest first. *)
Definition win_enum_handler (in_title : string)
    (actually_show_it_instead : bool)
    (acc : option Z * list (Z * show_command)) (wd : window)
    : option Z * list (Z * show_command) :=
  if contains in_title (window_text wd) then
    (Some (hwnd wd),
     snd acc ++ (hwnd wd, SW_HIDE)
       :: (if actually_show_it_instead then [(hwnd wd, SW_SHOW)] else []))
  else acc.

Definition hide_window (windows : list window) (in_title : string)
    (actually_show_it_instead : bool) : option Z * list (Z * show_command) :=
  fold_left (win_enum_handler in_title actually_show_it_instead) windows
    (None, []).

(** The calls of [ShowWindow] one window receives. *)
Definition calls_for (in_title : string) (actually_show_it_instead : bool)
    (wd : window) : list (Z * show_command) :=
  if contains in_title (window_text wd) then
    (hwnd wd, SW_HIDE)
      :: (if actually_show_it_instead then [(hwnd wd, SW_SHOW)] else [])
  else [].

(** ** Constants of the client *)

Definition BATTERY_VERY_LOW_AT : Z := 15.
Definition BATTERY_LOW_AT : Z := 30.
Definition BATTERY_CHARGED_AT : Z := 85.

Inductive client_exn : Type :=
| ConnectionError               (* requests.exceptions.ConnectionError *)
| ValueError
| KeyError (key : string)
| TypeError
| OverflowError
| UnboundLocalError (name : string)
| OtherException (name : string).   (* a class none of the above is a base of *)

(** ** [get_battery_level] *)

Inductive pyfloat : Type :=
| Finite (m e : Z)              (* m * 2^e *)
| Infinity (negative : bool)
| NaN.

#[warnings="-register-all"]
Inductive jvalue : Type :=
| JNull
| JBool (b : bool)
| JInt (z : Z)
| JFloat (f : pyfloat)
| JStr (s : string)
| JList (items : list jvalue)
| JObj (members : list (string * jvalue)).

Inductive http_result : Type :=
| Unreachable                                (* [requests.get] raises [ConnectionError] *)
| Responded (body : list (string * jvalue))  (* [res.json()] is this dictionary *)
| Answered (v : jvalue)                      (* [res.json()] is this value *)
| Failed (e : client_exn).                   (* [requests.get] or [res.json()] raises [e] *)

(** [d[key]] on a dictionary. *)
Fixpoint getitem (key : string) (d : list (string * jvalue))
    : client_exn + jvalue :=
  match d with
  | [] => inl (KeyError key)
  | (k, v) :: rest => if String.eqb k key then inr v else getitem key rest
  end.

(** [v[key]] for a string [key]: only a dictionary has such an item. *)
Definition subscript (v : jvalue) (key : string) : client_exn + jvalue :=
  match v with
  | JObj d => getitem key d
  | _ => inl TypeError
  end.

(** [int(f)] for a float: truncation towards zero. *)
Definition int_of_float (f : pyfloat) : client_exn + Z :=
  match f with
  | Finite m e => inr (if 0 <=? e then m * 2 ^ e else Z.quot m (2 ^ (- e)))
  | Infinity _ => inl OverflowError
  | NaN => inl ValueError
  end.

(** [int(v)]. *)
Definition py_int (int_of_str : string -> option Z) (v : jvalue)
    : client_exn + Z :=
  match v with
  | JNull => inl TypeError
  | JBool b => inr (if b then 1 else 0)
  | JInt z => inr z
  | JFloat f => int_of_float f
  | JStr s => match int_of_str s with
              | Some z => inr z
              | None => inl ValueError
              end
  | JList _ => inl TypeError
  | JObj _ => inl TypeError
  end.

(** [requests.get(...)] followed by [res.json()]. *)
Definition res_json (r : http_result) : client_exn + jvalue :=
  match r with
  | Unreachable => inl ConnectionError
  | Responded body => inr (JObj body)
  | Answered v => inr v
  | Failed e => inl e
  end.

Definition get_battery_level (int_of_str : string -> option Z)
    (r : http_result) : client_exn + Z :=
  let attempt :=
    match res_json r with
    | inl e => inl e
    | inr json =>
        match subscript json "battery_status" with
        | inl e => inl e
        | inr battery_level => py_int int_of_str battery_level
        end
    end in
  match attempt with
  | inl ConnectionError => inr (-1)
  | inl ValueError => inr (-1)
  | other => other
  end.

(** What [jsonify] sends for the answer of the handler [battery_status]. *)
Definition jsonify_status (r : reply) : list (string * jvalue) :=
  [("battery_status"%string,
    match r with
    | unknown => JStr "unknown"
    | percentage p => JInt p
    end)].

(** ** [create_image] *)

Inductive font : Type :=
| TrueType (file : string) (size : Z)
| DefaultFont.

Record pil : Type := mk_pil {
  truetype_loads : string -> Z -> bool;
  textbbox : string -> font -> Z * Z * Z * Z
}.

(** A quotient [n / d], as written. *)
Inductive quotient : Type :=
| Div (n d : Z).

Record image : Type := mk_image {
  image_size : Z * Z;
  drawn_text : string;
  drawn_at : quotient * quotient;
  drawn_font : font;
  fill : Z * Z * Z
}.

Definition text_color (charge_level : Z) : Z * Z * Z :=
  if charge_level <=? BATTERY_VERY_LOW_AT then (255, 66, 88)
  else if charge_level <=? BATTERY_LOW_AT then (255, 174, 0)
  else if BATTERY_CHARGED_AT <=? charge_level then (102, 255, 132)
  else (255, 255, 255).

(** [str] of an integer. *)
Definition str (z : Z) : string := NilZero.string_of_int (Z.to_int z).

Definition font_path : string := "arial.ttf".

(** The width and height [textbbox] measures. *)
Definition measure (P : pil) (text : string) (f : font) : Z * Z :=
  match textbbox P text f with
  | (x0, y0, x1, y1) => (x1 - x0, y1 - y0)
  end.

(** The loop [while font_size > 0], entered with [font_size = n]: the font
    and the measures it ends with. *)
Fixpoint fit_text (P : pil) (text : string) (width height : Z) (n : nat)
    (fnt : option font) (text_width text_height : Z)
    : option font * Z * Z :=
  match n with
  | O => (fnt, text_width, text_height)
  | S m =>
      if truetype_loads P font_path (Z.of_nat n) then
        let f := TrueType font_path (Z.of_nat n) in
        let (tw, th) := measure P text f in
        if (tw <=? width) && (th <=? height) then (Some f, tw, th)
        else fit_text P text width height m (Some f) tw th
      else fit_text P text width height m (Some DefaultFont)
             text_width text_height
  end.

Definition create_image (P : pil) (charge_level width height : Z)
    : client_exn + image :=
  if (width <? 0) || (height <? 0) then inl ValueError
  else
    match fit_text P (str charge_level) width height (Z.to_nat height)
            None 0 0 with
    | (None, _, _) => inl (UnboundLocalError "font")
    | (Some f, text_width, text_height) =>
        inr (mk_image (width, height) (str charge_level)
               (Div (width - text_width) 2, Div (height - text_height) 12)
               f (text_color charge_level))
    end.

(** Size [k] is one at which the font loads and the text fits. *)
Definition fits_at (P : pil) (text : string) (width height k : Z) : bool :=
  truetype_loads P font_path k
  && (fst (measure P text (TrueType font_path k)) <=? width)
  && (snd (measure P text (TrueType font_path k)) <=? height).

(** ** [update_icon] *)

Record tray_icon : Type := mk_tray_icon {
  visible : bool;
  icon : image;
  title : option string
}.

(** The icon afterwards, and the exception if one was raised. *)
Definition update_icon (P : pil) (ic : tray_icon) (charge_level : Z)
    : tray_icon * option client_exn :=
  if charge_level =? -1 then (mk_tray_icon false (icon ic) (title ic), None)
  else
    let ic1 := if negb (visible ic)
               then mk_tray_icon true (icon ic) (title ic) else ic in
    match create_image P charge_level 64 64 with
    | inl e => (ic1, Some e)
    | inr img =>
        (mk_tray_icon (visible ic1) img
           (Some ("Headset Battery: " ++ str charge_level ++ "%")%string),
         None)
    end.

(** ** One round of [update] *)

Record poller : Type := mk_poller {
  last_charge_level : Z;
  tray : tray_icon;
  beeps : nat
}.

(** The test before [winsound.MessageBeep]. *)
Definition should_beep (last_charge_level charge_level : Z) : bool :=
  ((0 <? last_charge_level) && (last_charge_level <? charge_level)
   && (BATTERY_CHARGED_AT <=? charge_level))
  || ((0 <? last_charge_level) && (charge_level <? last_charge_level)
      && (charge_level <=? BATTERY_VERY_LOW_AT)).

Definition update_round (P : pil) (int_of_str : string -> option Z)
    (r : http_result) (st : poller) : poller * option client_exn :=
  match get_battery_level int_of_str r with
  | inl e => (st, Some e)
  | inr charge_level =>
      if charge_level =? last_charge_level st then (st, None)
      else
        let b := if should_beep (last_charge_level st) charge_level
                 then S (beeps st) else beeps st in
        match update_icon P (tray st) charge_level with
        | (ic, e) => (mk_poller charge_level ic b, e)
        end
  end.

(** The thread of [update]: rounds until an exception ends it. *)
Fixpoint update_rounds (P : pil) (int_of_str : string -> option Z)
    (rs : list http_result) (st : poller) : poller * option client_exn :=
  match rs with
  | [] => (st, None)
  | r :: rest =>
      match update_round P int_of_str r st with
      | (st1, None) => update_rounds P int_of_str rest st1
      | (st1, Some e) => (st1, Some e)
      end
  end.

(** The icon [main] creates, and the state [update] starts in. *)
Definition first_icon (img : image) : tray_icon := mk_tray_icon false img None.

Definition first_poller (img : image) : poller :=
  mk_poller (-1) (first_icon img) 0.

(** ** Sample surroundings of the client *)

(** A font that loads at every size; a character is half as wide as the
    font is high. *)
Definition arial : pil :=
  mk_pil (fun _ _ => true)
    (fun text f =>
       match f with
       | TrueType _ size =>
           (0, 0, Z.of_nat (String.length text) * size / 2, size)
       | DefaultFont => (0, 0, 6 * Z.of_nat (String.length text), 11)
       end).

(** No font file. *)
Definition no_font : pil :=
  mk_pil (fun _ _ => false) (textbbox arial).

(** [int] on the strings the examples need: decimal digits only. *)
Definition digits_only (s : string) : option Z :=
  match s with
  | EmptyString => None
  | _ => match NilZero.int_of_string s with
         | Some (Decimal.Pos d) => Some (Z.of_int (Decimal.Pos d))
         | _ => None
         end
  end.

Definition desk : list window :=
  [mk_window 11 "Check Battery Server"; mk_window 12 "Editor";
   mk_window 13 "Show Battery As An Icon"].

(** * The thread of [run], statement by statement

    The timers run [bootstrap] on threads of their own and nothing locks
    the fields they share with [run].  [sys_step] takes a tick and an
    iteration of the loop each as a whole: it describes the executions in
    which they do not overlap.  Here the iteration is cut at every
    statement of [run] and [process_data] that assigns a field another
    thread reads (lines 156 and 157, lines 167 to 175), and a tick can run
    at each cut.  A tick still runs as a whole. *)

Inductive point : Type :=
| Between (p : pc)      (* between two iterations: where [sys_step] stands *)
| Dropping              (* the read raised [OSError]: line 156 done, 157 not *)
| Assigned (b : Z) (previous_battery_status : option Z)
                        (* [process_data]: line 167 done *)
| Announced (b : Z)     (* line 171 done *)
| Served (b : Z).       (* line 173 done *)

(** The read and what follows up to the first assignment. *)
Definition read_and_start (w : env) (s : state) : point * state :=
  match bootstrap_device s with
  | None => (Between (Exited AttributeError), s)
  | Some h =>
      let s1 := record (ReadFrom h 20) s in
      match read w with
      | inl e =>
          if is_OSError e then (Dropping, set_bootstrap_device None s1)
          else (Between (Exited e), s1)
      | inr [] => (Between AtLoopTop, s1)
      | inr data =>
          match nth_error data CommandMeaning.position_info with
          | None => (Between (Exited IndexError), s1)
          | Some info =>
              if info =? CommandMeaning.type_battery_status then
                match nth_error data CommandMeaning.position_battery with
                | None => (Between (Exited IndexError), s1)
                | Some b =>
                    (Assigned b (battery_status s1),
                     set_battery_status (Some b) s1)
                end
              else (Between AtLoopTop, s1)
          end
      end
  end.

Definition wait_then_read (wr : env) (s : state) : point * state :=
  if device_ready s then read_and_start wr s else (Between AtLoopWait, s).

(** One statement (or one stretch without shared assignment) of the thread
    of [run]. *)
Definition run_statement (c : config) (wb wr : env) (pt : point) (s : state)
    : point * state :=
  match pt with
  | Between AtFirstWait =>
      if device_ready s then (Between AtLoopTop, s)
      else (Between AtFirstWait, s)
  | Between AtLoopWait => wait_then_read wr s
  | Between AtLoopTop =>
      match bootstrap_device s with
      | None =>
          match bootstrap c wb s with
          | (Ok _, s1) => wait_then_read wr s1
          | (Raise e, s1) => (Between (Exited e), s1)
          end
      | Some _ => read_and_start wr s
      end
  | Between (Exited e) => (Between (Exited e), s)
  | Dropping => (Between AtLoopTop, set_device_ready false s)
  | Assigned b previous_battery_status =>
      if option_Z_eqb previous_battery_status (battery_status s) then
        (Between AtLoopTop, set_last_battery_update_at (Some (now wr)) s)
      else (Announced b, record (Emitted_battery_status b) s)
  | Announced b => (Served b, set_app_battery_status (battery_status s) s)
  | Served b =>
      (Between AtLoopTop, set_last_battery_update_at (Some (now wr)) s)
  end.

Definition fine_step (c : config) (i : input) (x : point * state)
    : point * state :=
  match i with
  | Tick w => (fst x, snd (bootstrap c w (snd x)))
  | Loop wb wr => run_statement c wb wr (fst x) (snd x)
  end.

Definition fine_run (c : config) (inputs : list input) (x : point * state)
    : point * state :=
  fold_left (fun acc i => fine_step c i acc) inputs x.

Definition fine_start (c : config) (w0 w : env) : point * state :=
  (Between (fst (start c w0 w)), snd (start c w0 w)).

Definition fine_reachable (c : config) (x : point * state) : Prop :=
  exists (w0 w : env) (inputs : list input),
    x = fine_run c inputs (fine_start c w0 w).

(** The statements left of an iteration, run without a tick in between. *)
Definition to_the_end (c : config) (wb wr : env) (x : point * state)
    : point * state :=
  let go := fun y : point * state =>
              match fst y with
              | Between _ => y
              | _ => run_statement c wb wr (fst y) (snd y)
              end in
  go (go (go x)).




(** ** Sample runs with a tick inside an iteration *)

(** The headset is unplugged: the read fails and line 156 has dropped the
    handle; line 157 has not run yet. *)
Definition handle_just_dropped : point * state :=
  fine_run default_config
    [Loop (calm 1) (calm 1); Loop (calm 5) (world 5 None None (inl OSError))]
    (fine_start default_config (calm 0) (calm 0)).

(** A timer fires at that moment and runs to its end. *)
Definition tick_in_the_window : point * state :=
  fine_step default_config (Tick (calm 6)) handle_just_dropped.


(** A read fails, a tick re-opens the device but its wake write fails, and
    the loop moves on. *)
Definition woke_badly : pc * state :=
  sys_run default_config
    [Loop (calm 1) (calm 1);
     Loop (calm 5) (world 5 None None (inl OSError));
     Tick (world 6 None (Some OSError) (inr []))]
    plugged_in.

Definition read_unwoken : pc * state :=
  sys_step default_config (Loop (calm 7) (calm 7)) woke_badly.

(** * Properties *)

(** ** Tactics and basic facts *)

Ltac unfold_py :=
  unfold bind, ret, raise, gets, modify, try_finally, after in *.

Lemma option_Z_eqb_eq (a b : option Z) : option_Z_eqb a b = true <-> a = b.
Proof.
  destruct a as [x|], b as [y|]; simpl; split; intros H;
    try discriminate; try reflexivity.
  - apply Z.eqb_eq in H. congruence.
  - inversion H. apply Z.eqb_refl.
Qed.

Lemma option_Z_eqb_neq (a b : option Z) : option_Z_eqb a b = false <-> a <> b.
Proof.
  destruct (option_Z_eqb a b) eqn:E; split; intros H; try discriminate.
  - apply option_Z_eqb_eq in E. contradiction.
  - intros Hab. apply option_Z_eqb_eq in Hab. congruence.
  - reflexivity.
Qed.

Lemma nth_error_in_range {A} (l : list A) (i : nat) :
  (i < length l)%nat -> exists x, nth_error l i = Some x.
Proof.
  intros H. destruct (nth_error l i) as [x|] eqn:E.
  - now exists x.
  - apply nth_error_None in E. lia.
Qed.

(** ** [process_data], case by case *)

Section ProcessData.

Variables (t : Z) (data : list Z) (s : state).

Lemma process_data_no_info :
  nth_error data CommandMeaning.position_info = None ->
  process_data t data s = (Raise IndexError, s).
Proof.
  intros H. unfold process_data, index. rewrite H. reflexivity.
Qed.

Lemma process_data_other_type (m : Z) :
  nth_error data CommandMeaning.position_info = Some m ->
  m <> CommandMeaning.type_battery_status ->
  process_data t data s = (Ok tt, s).
Proof.
  intros H Hm. unfold process_data, index. rewrite H. unfold_py.
  apply Z.eqb_neq in Hm. rewrite Hm. reflexivity.
Qed.

Lemma process_data_no_battery :
  nth_error data CommandMeaning.position_info
    = Some CommandMeaning.type_battery_status ->
  nth_error data CommandMeaning.position_battery = None ->
  process_data t data s = (Raise IndexError, s).
Proof.
  intros H H7. unfold process_data, index. rewrite H, H7. reflexivity.
Qed.

Lemma process_data_same (b : Z) :
  nth_error data CommandMeaning.position_info
    = Some CommandMeaning.type_battery_status ->
  nth_error data CommandMeaning.position_battery = Some b ->
  battery_status s = Some b ->
  process_data t data s = (Ok tt, reading_kept t s).
Proof.
  intros H H7 Hs. unfold process_data, index. rewrite H, H7. unfold_py.
  rewrite Z.eqb_refl. rewrite Hs. simpl. rewrite Z.eqb_refl.
  unfold reading_kept, set_last_battery_update_at, set_battery_status. simpl.
  rewrite <- Hs. reflexivity.
Qed.

Lemma process_data_changed (b : Z) :
  nth_error data CommandMeaning.position_info
    = Some CommandMeaning.type_battery_status ->
  nth_error data CommandMeaning.position_battery = Some b ->
  battery_status s <> Some b ->
  process_data t data s = (Ok tt, reading_changed t b s).
Proof.
  intros H H7 Hs. unfold process_data, index. rewrite H, H7. unfold_py.
  rewrite Z.eqb_refl. apply option_Z_eqb_neq in Hs. cbn [battery_status
  set_battery_status]. rewrite Hs. reflexivity.
Qed.

(** Whatever the frame, an exception leaves the object as it was. *)
Lemma process_data_raise_unchanged (e : exn) :
  fst (process_data t data s) = Raise e ->
  e = IndexError /\ snd (process_data t data s) = s.
Proof.
  unfold process_data, index.
  destruct (nth_error data CommandMeaning.position_info) as [m|]; unfold_py.
  - destruct (m =? CommandMeaning.type_battery_status).
    + destruct (nth_error data CommandMeaning.position_battery) as [b|].
      * cbn [battery_status set_battery_status].
        destruct (option_Z_eqb (battery_status s) (Some b)); simpl; discriminate.
      * simpl. intros H. inversion H. auto.
    + simpl. discriminate.
  - simpl. intros H. inversion H. auto.
Qed.

End ProcessData.

(** ** The frame decoder and the cache update *)

(** C1. A 20-byte frame is processed without error.  Processing it updates
    the battery state (for some clock reading the object afterwards differs
    from the object before) if and only if its byte at offset 3 is the
    battery-status marker 2; the battery status is then the byte at offset 7
    and the time of the last update is the clock reading.  A frame with
    another byte at offset 3 changes nothing: no field, no emitted event. *)
Theorem C1_battery_event_iff_marker (f : list Z) (s : state) :
  length f = 20%nat ->
  (forall t, fst (process_data t f s) = Ok tt)
  /\ ((exists t, snd (process_data t f s) <> s)
      <-> nth_error f CommandMeaning.position_info
          = Some CommandMeaning.type_battery_status)
  /\ (nth_error f CommandMeaning.position_info
        = Some CommandMeaning.type_battery_status ->
      forall t,
        battery_status (snd (process_data t f s))
          = nth_error f CommandMeaning.position_battery
        /\ last_battery_update_at (snd (process_data t f s)) = Some t)
  /\ (nth_error f CommandMeaning.position_info
        <> Some CommandMeaning.type_battery_status ->
      forall t, snd (process_data t f s) = s).
Proof.
  intros Hlen.
  destruct (nth_error_in_range f CommandMeaning.position_info) as [m Hm].
  { unfold CommandMeaning.position_info. lia. }
  destruct (nth_error_in_range f CommandMeaning.position_battery) as [b Hb].
  { unfold CommandMeaning.position_battery. lia. }
  destruct (Z.eq_dec m CommandMeaning.type_battery_status) as [->|Hne].
  - assert (Hupd : forall t,
               fst (process_data t f s) = Ok tt
               /\ battery_status (snd (process_data t f s)) = Some b
               /\ last_battery_update_at (snd (process_data t f s)) = Some t).
    { intros t. destruct (option_Z_eqb (battery_status s) (Some b)) eqn:E.
      - apply option_Z_eqb_eq in E.
        rewrite (process_data_same t f s b Hm Hb E). simpl.
        repeat split; assumption.
      - apply option_Z_eqb_neq in E.
        rewrite (process_data_changed t f s b Hm Hb E). simpl. auto. }
    split; [intros t; apply Hupd|]. split; [split|split].
    + intros _. exact Hm.
    + intros _.
      exists (match last_battery_update_at s with
              | Some t0 => t0 + 1
              | None => 0
              end).
      intros Heq.
      match type of Heq with
      | snd (process_data ?t f s) = s =>
          destruct (Hupd t) as (_ & _ & Hlast); rewrite Heq in Hlast
      end.
      destruct (last_battery_update_at s) as [t0|]; [|discriminate].
      inversion Hlast. lia.
    + intros _ t. rewrite Hb. apply Hupd.
    + intros Hno. contradiction.
  - assert (Hno : nth_error f CommandMeaning.position_info
                  <> Some CommandMeaning.type_battery_status).
    { rewrite Hm. intros H. inversion H. contradiction. }
    assert (Hsame : forall t, process_data t f s = (Ok tt, s)).
    { intros t. exact (process_data_other_type t f s m Hm Hne). }
    split; [intros t; rewrite Hsame; reflexivity|]. split; [split|split].
    + intros (t & Ht). rewrite Hsame in Ht. exfalso. apply Ht. reflexivity.
    + intros H. contradiction.
    + intros H. contradiction.
    + intros _ t. rewrite Hsame. reflexivity.
Qed.

(** C2. A battery frame whose reading [p] is the cached one refreshes the
    time of the last update and nothing else (no event is emitted); a
    battery frame whose reading differs from the cached one replaces the
    cached value (also the one the HTTP handler serves), refreshes the time
    and emits exactly one [battery_status] event, carrying [p]. *)
Theorem C2_update_same_or_changed (t p : Z) (f : list Z) (s : state) :
  nth_error f CommandMeaning.position_info
    = Some CommandMeaning.type_battery_status ->
  nth_error f CommandMeaning.position_battery = Some p ->
  (battery_status s = Some p ->
   process_data t f s = (Ok tt, reading_kept t s)
   /\ last_battery_update_at (reading_kept t s) = Some t
   /\ battery_status (reading_kept t s) = Some p
   /\ log (reading_kept t s) = log s)
  /\ (battery_status s <> Some p ->
      process_data t f s = (Ok tt, reading_changed t p s)
      /\ battery_status (reading_changed t p s) = Some p
      /\ app_battery_status (reading_changed t p s) = Some p
      /\ last_battery_update_at (reading_changed t p s) = Some t
      /\ log (reading_changed t p s) = Emitted_battery_status p :: log s).
Proof.
  intros H3 H7. split; intros Hs.
  - rewrite (process_data_same t f s p H3 H7 Hs). simpl. auto.
  - rewrite (process_data_changed t f s p H3 H7 Hs). simpl. auto.
Qed.

Lemma C1_battery_event_iff_marker_witness :
  length (sample_frame 2 45) = 20%nat
  /\ (forall t, fst (process_data t (sample_frame 2 45) blank) = Ok tt)
  /\ ((exists t, snd (process_data t (sample_frame 2 45) blank) <> blank)
      <-> nth_error (sample_frame 2 45) CommandMeaning.position_info
          = Some CommandMeaning.type_battery_status)
  /\ (nth_error (sample_frame 2 45) CommandMeaning.position_info
        = Some CommandMeaning.type_battery_status ->
      forall t,
        battery_status (snd (process_data t (sample_frame 2 45) blank))
          = nth_error (sample_frame 2 45) CommandMeaning.position_battery
        /\ last_battery_update_at
             (snd (process_data t (sample_frame 2 45) blank)) = Some t)
  /\ (nth_error (sample_frame 2 45) CommandMeaning.position_info
        <> Some CommandMeaning.type_battery_status ->
      forall t, snd (process_data t (sample_frame 2 45) blank) = blank).
Proof.
  split; [reflexivity|].
  apply (C1_battery_event_iff_marker (sample_frame 2 45) blank).
  reflexivity.
Defined.

Lemma C2_update_same_or_changed_witness :
  nth_error (sample_frame 2 45) CommandMeaning.position_info
    = Some CommandMeaning.type_battery_status
  /\ nth_error (sample_frame 2 45) CommandMeaning.position_battery = Some 45
  /\ (battery_status blank <> Some 45 ->
      process_data 10 (sample_frame 2 45) blank
        = (Ok tt, reading_changed 10 45 blank)
      /\ battery_status (reading_changed 10 45 blank) = Some 45
      /\ app_battery_status (reading_changed 10 45 blank) = Some 45
      /\ last_battery_update_at (reading_changed 10 45 blank) = Some 10
      /\ log (reading_changed 10 45 blank)
         = Emitted_battery_status 45 :: log blank).
Proof.
  split; [reflexivity|]. split; [reflexivity|].
  apply (C2_update_same_or_changed 10 45 (sample_frame 2 45) blank);
    reflexivity.
Defined.

(** Two consecutive frames carrying 45: one event in all, the time of the
    last update advances on both. *)
Example two_frames_one_event :
  let s1 := snd (process_data 10 (sample_frame 2 45) blank) in
  let s2 := snd (process_data 20 (sample_frame 2 45) s1) in
  log s1 = [Emitted_battery_status 45]
  /\ last_battery_update_at s1 = Some 10
  /\ log s2 = [Emitted_battery_status 45]
  /\ last_battery_update_at s2 = Some 20
  /\ battery_status_route s2 = percentage 45.
Proof. repeat split. Qed.

(** C5, as stated, fails: a frame of three bytes is malformed (truncated),
    yet processing it raises [IndexError]; arriving through the read loop,
    the exception leaves [run]. *)
Lemma C5_truncated_frame_raises :
  malformed [0; 0; 0]
  /\ process_data 10 [0; 0; 0] blank = (Raise IndexError, blank)
  /\ process_data 10 [0; 0; 0] blank <> (Ok tt, blank)
  /\ fst (run_step default_config (calm 10)
            (world 10 None None (inr [0; 0; 0])) AtLoopTop
            (set_bootstrap_device (Some 0%nat) blank))
     = Exited IndexError.
Proof.
  split; [right; simpl; lia|].
  split; [reflexivity|]. split; [discriminate | reflexivity].
Qed.

(** C5, amended. Processing a malformed frame never changes the object.
    It completes without raising when the frame has a byte at offset 3 and
    that byte is not the battery-status marker; it raises [IndexError] when
    the frame has fewer than 4 bytes, and also when it has the marker at
    offset 3 but no byte at offset 7. *)
Theorem C5_malformed_frames (t : Z) (f : list Z) (s : state) :
  malformed f ->
  snd (process_data t f s) = s
  /\ ((4 <= length f)%nat ->
      nth_error f CommandMeaning.position_info
        <> Some CommandMeaning.type_battery_status ->
      fst (process_data t f s) = Ok tt)
  /\ ((length f < 4)%nat
      \/ nth_error f CommandMeaning.position_info
         = Some CommandMeaning.type_battery_status ->
      fst (process_data t f s) = Raise IndexError).
Proof.
  intros Hmal.
  destruct (nth_error f CommandMeaning.position_info) as [m|] eqn:H3.
  - assert (Hlen4 : (4 <= length f)%nat).
    { assert (nth_error f CommandMeaning.position_info <> None) as Hn
        by congruence.
      apply nth_error_Some in Hn. unfold CommandMeaning.position_info in Hn.
      lia. }
    destruct (Z.eq_dec m CommandMeaning.type_battery_status) as [->|Hne].
    + destruct Hmal as [Hmal|Hshort]; [congruence|].
      assert (H7 : nth_error f CommandMeaning.position_battery = None).
      { apply nth_error_None. unfold CommandMeaning.position_battery. lia. }
      rewrite (process_data_no_battery t f s H3 H7). cbn [fst snd].
      split; [reflexivity|]. split; [congruence | reflexivity].
    + rewrite (process_data_other_type t f s m H3 Hne). cbn [fst snd].
      split; [reflexivity|]. split; [reflexivity|].
      intros [Hl|Hm]; [lia | congruence].
  - rewrite (process_data_no_info t f s H3). cbn [fst snd].
    split; [reflexivity|]. split; [|reflexivity].
    intros Hl _. apply nth_error_None in H3.
    unfold CommandMeaning.position_info in H3. lia.
Qed.

Lemma C5_malformed_frames_witness :
  malformed (sample_frame 9 45)
  /\ snd (process_data 10 (sample_frame 9 45) blank) = blank
  /\ ((4 <= length (sample_frame 9 45))%nat ->
      nth_error (sample_frame 9 45) CommandMeaning.position_info
        <> Some CommandMeaning.type_battery_status ->
      fst (process_data 10 (sample_frame 9 45) blank) = Ok tt)
  /\ ((length (sample_frame 9 45) < 4)%nat
      \/ nth_error (sample_frame 9 45) CommandMeaning.position_info
         = Some CommandMeaning.type_battery_status ->
      fst (process_data 10 (sample_frame 9 45) blank) = Raise IndexError).
Proof.
  assert (H : malformed (sample_frame 9 45)) by (left; discriminate).
  split; [exact H|].
  apply (C5_malformed_frames 10 (sample_frame 9 45) blank H).
Defined.

(** ** Searching for the device *)

Lemma searching_weaken (fresh : bool) (lo lo' hi hi' : nat) (d : list effect) :
  (lo' <= lo)%nat -> (hi <= hi')%nat ->
  Forall (searching false lo hi) d -> Forall (searching fresh lo' hi') d.
Proof.
  intros Hlo Hhi H. induction H as [|e d He _ IH]; constructor; [|exact IH].
  destruct e; simpl in *; try exact He; try discriminate. lia.
Qed.

Lemma searching_no_enumeration (lo hi : nat) (d : list effect) :
  Forall (searching false lo hi) d -> enumerations d = 0%nat.
Proof.
  unfold enumerations.
  intros H. induction H as [|e d He _ IH]; [reflexivity|].
  destruct e; simpl in *; try exact IH; try contradiction. discriminate.
Qed.

Lemma enumerations_app (d l : list effect) :
  enumerations (d ++ l) = (enumerations d + enumerations l)%nat.
Proof. unfold enumerations. rewrite filter_app, length_app. reflexivity. Qed.

Lemma open_first_devices (w : env) (ds : list device_info) :
  forall s, devices (snd (open_first w ds s)) = devices s.
Proof.
  induction ds as [|device rest IH]; intros s; simpl; [reflexivity|].
  destruct ((usage_page device =? USAGE_PAGE) && (usage device =? 1));
    [|apply IH].
  unfold_py. simpl.
  destruct (open_path w (path device)) as [e|]; [|reflexivity].
  destruct (is_OSError e); [|reflexivity].
  simpl. rewrite IH. reflexivity.
Qed.

Lemma open_first_searched (w : env) (ds : list device_info) :
  forall s, bootstrap_device s = None ->
  searched false s (fst (open_first w ds s)) (snd (open_first w ds s)).
Proof.
  induction ds as [|device rest IH]; intros s Hdev; simpl.
  - constructor; simpl; try reflexivity; try lia.
    + exists []. repeat split; [constructor | discriminate | discriminate].
    + left. exact Hdev.
  - destruct ((usage_page device =? USAGE_PAGE) && (usage device =? 1));
      [|apply IH; exact Hdev].
    unfold_py. simpl.
    destruct (open_path w (path device)) as [e|] eqn:Hopen.
    + destruct (is_OSError e) eqn:Hos; simpl.
      * match goal with
        | |- context [open_first w rest ?m] =>
            specialize (IH m eq_refl);
            destruct (open_first w rest m) as [r s'] eqn:Hrun
        end.
        simpl in *. destruct IH as [Hi Hb Ha Hl Hr Hn (d & Hd & Hall & Hex) Hdv].
        simpl in *.
        constructor; simpl; try assumption; try lia.
        -- exists (d ++ [Opened (next_handle s) (path device) (Some e)]).
           rewrite <- app_assoc. simpl. split; [exact Hd|]. split.
           ++ apply Forall_app. split.
              ** eapply searching_weaken; [| |exact Hall]; lia.
              ** constructor; [simpl; lia | constructor].
           ++ intros e0 He0. destruct (Hex e0 He0) as (Hos0 & h & p & Hin).
              split; [exact Hos0|]. exists h, p. apply in_or_app. now left.
        -- destruct Hdv as [Hnone|(h & Hh & Hrange)]; [now left|].
           right. exists h. split; [exact Hh | lia].
      * constructor; simpl; try reflexivity; try lia.
        -- exists [Opened (next_handle s) (path device) (Some e)].
           split; [reflexivity|]. split.
           ++ constructor; [simpl; lia | constructor].
           ++ intros e0 He0. inversion He0; subst e0. split; [exact Hos|].
              exists (next_handle s), (path device). now left.
        -- right. exists (next_handle s). split; [reflexivity | lia].
    + simpl. constructor; simpl; try reflexivity; try lia.
      * exists [Opened (next_handle s) (path device) None].
        split; [reflexivity|]. split.
        -- constructor; [simpl; lia | constructor].
        -- discriminate.
      * right. exists (next_handle s). split; [reflexivity | lia].
Qed.

Lemma discover_devices (w : env) (s : state) :
  devices (snd (discover w s))
  = if is_nil (devices s) then hid_enumerate w else devices s.
Proof.
  unfold discover. unfold_py. destruct (devices s) as [|d0 ds] eqn:Hds; simpl.
  - rewrite open_first_devices. reflexivity.
  - rewrite Hds. 
    change (devices (snd (open_first w (d0 :: ds) s)) = d0 :: ds).
    rewrite open_first_devices. exact Hds.
Qed.

Lemma discover_searched (w : env) (s : state) :
  bootstrap_device s = None ->
  searched (is_nil (devices s)) s (fst (discover w s)) (snd (discover w s)).
Proof.
  intros Hdev. unfold discover. unfold_py.
  destruct (devices s) as [|d0 ds] eqn:Hds; simpl.
  - match goal with
    | |- context [open_first w ?l ?m] =>
        pose proof (open_first_searched w l m Hdev) as H;
        destruct (open_first w l m) as [r s']
    end.
    simpl in *. destruct H as [Hi Hb Ha Hl Hr Hn (d & Hd & Hall & Hex) Hdv].
    simpl in *.
    constructor; try assumption.
    exists (d ++ [Enumerated VENDOR_ID PRODUCT_ID]).
    rewrite <- app_assoc. split; [exact Hd|]. split.
    + apply Forall_app. split.
      * eapply searching_weaken; [| |exact Hall]; lia.
      * constructor; [reflexivity | constructor].
    + intros e He. destruct (Hex e He) as (Hos & h & p & Hin).
      split; [exact Hos|]. exists h, p. apply in_or_app. now left.
  - rewrite Hds.
    pose proof (open_first_searched w (d0 :: ds) s Hdev) as H.
    destruct H as [Hi Hb Ha Hl Hr Hn (d & Hd & Hall & Hex) Hdv].
    constructor; try assumption.
    exists d. split; [exact Hd|]. split; [|exact Hex].
    eapply searching_weaken; [| |exact Hall]; lia.
Qed.

(** ** The wake attempt and the shape of [bootstrap] *)

Lemma wake_eq (w : env) (h : handle) (s : state) :
  wake w h s = (wake_result w, woke w h s).
Proof.
  unfold wake, woke, wake_result. unfold_py.
  destruct (write w) as [e|]; [|reflexivity].
  destruct (is_OSError e); [reflexivity|].
  simpl. destruct (emit_error w e); reflexivity.
Qed.

Lemma wake_result_raise (w : env) (e : exn) :
  wake_result w = Raise e ->
  exists e0, write w = Some e0 /\ is_OSError e0 = false
             /\ emit_error w e0 = Some e.
Proof.
  unfold wake_result. destruct (write w) as [e0|]; [|discriminate].
  destruct (is_OSError e0) eqn:Hos; [discriminate|].
  destruct (emit_error w e0) as [e'|] eqn:Hemit; [|discriminate].
  intros H. inversion H; subst. exists e0. auto.
Qed.

Lemma bootstrap_body_eq (c : config) (w : env) (s : state) :
  bootstrap_body c w s
  = let s0 := if stale c w s then invalidated s else s in
    match bootstrap_device s0 with
    | Some _ => settle w s0
    | None =>
        match discover w s0 with
        | (Ok _, s1) => settle w s1
        | (Raise e, s1) => (Raise e, s1)
        end
    end.
Proof.
  unfold bootstrap_body, settle, invalidate, invalidated. unfold_py.
  destruct (stale c w s); simpl.
  - match goal with
    | |- context [discover w ?m] => destruct (discover w m) as [[[]|e] s1]
    end; [|reflexivity].
    destruct (bootstrap_device s1) as [h|]; [|reflexivity].
    destruct (device_ready s1); [reflexivity | apply wake_eq].
  - destruct (bootstrap_device s) as [h|] eqn:Hdev.
    + rewrite Hdev. destruct (device_ready s); [reflexivity | apply wake_eq].
    + destruct (discover w s) as [[[]|e] s1]; [|reflexivity].
      destruct (bootstrap_device s1) as [h|]; [|reflexivity].
      destruct (device_ready s1); [reflexivity | apply wake_eq].
Qed.

Lemma bootstrap_eq (c : config) (w : env) (s : state) :
  bootstrap c w s
  = (fst (bootstrap_body c w s), rearmed c (snd (bootstrap_body c w s))).
Proof.
  unfold bootstrap, rearm, rearmed. unfold_py.
  destruct (bootstrap_body c w s) as [r s1]. reflexivity.
Qed.

(** ** The readiness invariant is kept by every operation *)

Lemma no_write_not_in (d : list effect) (h : handle) (buf : list Z)
    (r : option exn) :
  Forall no_write d -> ~ In (Wrote h buf r) d.
Proof.
  intros Hall Hin. rewrite Forall_forall in Hall.
  exact (Hall _ Hin).
Qed.

Lemma searching_no_write (fresh : bool) (lo hi : nat) (d : list effect) :
  Forall (searching fresh lo hi) d -> Forall no_write d.
Proof.
  intros H. induction H as [|e d He _ IH]; constructor; [|exact IH].
  destruct e; simpl in *; try exact I. contradiction.
Qed.

(** Effects other than writes, with handle, readiness and handle counter
    untouched, keep the invariant. *)
Lemma ready_inv_frame (s s' : state) (d : list effect) :
  ready_inv s ->
  bootstrap_device s' = bootstrap_device s ->
  device_ready s' = device_ready s ->
  next_handle s' = next_handle s ->
  log s' = d ++ log s ->
  Forall no_write d ->
  ready_inv s'.
Proof.
  intros [Hw Hh Hr] Hdev Hready Hnext Hlog Hd.
  constructor.
  - intros h buf r Hin. rewrite Hlog in Hin. rewrite Hnext.
    apply in_app_or in Hin. destruct Hin as [Hin|Hin].
    + exfalso. exact (no_write_not_in d h buf r Hd Hin).
    + exact (Hw h buf r Hin).
  - intros h Hs. rewrite Hnext. apply Hh. congruence.
  - rewrite Hready, Hdev, Hr. unfold woken. rewrite Hlog.
    split; intros (h & Hs & Hin); exists h; (split; [exact Hs|]).
    + apply in_or_app. now right.
    + apply in_app_or in Hin. destruct Hin as [Hin|Hin]; [|exact Hin].
      exfalso. exact (no_write_not_in d h _ _ Hd Hin).
Qed.

(** Dropping the handle together with readiness keeps the invariant. *)
Lemma ready_inv_drop (s s' : state) (d : list effect) :
  ready_inv s ->
  bootstrap_device s' = None ->
  device_ready s' = false ->
  next_handle s' = next_handle s ->
  log s' = d ++ log s ->
  Forall no_write d ->
  ready_inv s'.
Proof.
  intros [Hw Hh Hr] Hdev Hready Hnext Hlog Hd.
  constructor.
  - intros h buf r Hin. rewrite Hlog in Hin. rewrite Hnext.
    apply in_app_or in Hin. destruct Hin as [Hin|Hin].
    + exfalso. exact (no_write_not_in d h buf r Hd Hin).
    + exact (Hw h buf r Hin).
  - intros h Hs. congruence.
  - rewrite Hready, Hdev. split; [discriminate|].
    intros (h & Hs & _). discriminate.
Qed.

Lemma ready_inv_invalidated (s : state) :
  ready_inv s -> ready_inv (invalidated s).
Proof.
  intros H. apply (ready_inv_drop s (invalidated s) []); auto.
Qed.

Lemma ready_inv_unready_without_handle (s : state) :
  ready_inv s -> bootstrap_device s = None -> device_ready s = false.
Proof.
  intros [_ _ Hr] Hdev. destruct (device_ready s); [|reflexivity].
  destruct (proj1 Hr eq_refl) as (h & Hs & _). congruence.
Qed.

Lemma ready_inv_searched (fresh : bool) (s s' : state) (r : res unit) :
  ready_inv s ->
  bootstrap_device s = None ->
  searched fresh s r s' ->
  ready_inv s' /\ device_ready s' = false.
Proof.
  intros Hinv Hdev [Hi Hb Ha Hl Hr Hn (d & Hd & Hall & _) Hdv].
  pose proof (ready_inv_unready_without_handle s Hinv Hdev) as Hunready.
  destruct Hinv as [Hw Hh Hrd].
  assert (Hnw : Forall no_write d) by (eapply searching_no_write; exact Hall).
  split; [|congruence].
  constructor.
  - intros h buf r0 Hin. rewrite Hd in Hin.
    apply in_app_or in Hin. destruct Hin as [Hin|Hin].
    + exfalso. exact (no_write_not_in d h buf r0 Hnw Hin).
    + specialize (Hw h buf r0 Hin). lia.
  - intros h Hs. destruct Hdv as [Hnone|(h' & Hs' & Hrange)]; [congruence|].
    assert (h = h') by congruence. subst h'. lia.
  - rewrite Hr, Hunready. split; [discriminate|].
    intros (h & Hs & Hin). exfalso.
    destruct Hdv as [Hnone|(h' & Hs' & Hrange)]; [congruence|].
    assert (h = h') by congruence. subst h'.
    unfold woken in Hin. rewrite Hd in Hin.
    apply in_app_or in Hin. destruct Hin as [Hin|Hin].
    + exact (no_write_not_in d h _ _ Hnw Hin).
    + specialize (Hw h _ _ Hin). lia.
Qed.

Lemma ready_inv_woke (w : env) (h : handle) (s : state) :
  ready_inv s ->
  bootstrap_device s = Some h ->
  device_ready s = false ->
  ready_inv (woke w h s).
Proof.
  intros [Hw Hh Hr] Hdev Hready.
  assert (Hnot : ~ woken h (log s)).
  { intros Hin. assert (device_ready s = true) as Ht
      by (apply Hr; exists h; auto). congruence. }
  assert (Hbound : forall h' buf r l,
             (forall e, In e l -> no_write e) ->
             In (Wrote h' buf r) (l ++ Wrote h wake_buffer (write w) :: log s) ->
             (h' < next_handle s)%nat).
  { intros h' buf r l Hl Hin. apply in_app_or in Hin.
    destruct Hin as [Hin|[Heq|Hin]].
    - exfalso. exact (Hl _ Hin).
    - inversion Heq; subst. apply Hh. exact Hdev.
    - exact (Hw _ _ _ Hin). }
  unfold woke. destruct (write w) as [e|] eqn:Hwrite.
  - assert (Hfail : forall l, (forall e0, In e0 l -> no_write e0) ->
               ~ woken h (l ++ Wrote h wake_buffer (Some e) :: log s)).
    { intros l Hl Hin. unfold woken in Hin. apply in_app_or in Hin.
      destruct Hin as [Hin|[Heq|Hin]].
      - exact (Hl _ Hin).
      - discriminate.
      - exact (Hnot Hin). }
    destruct (is_OSError e).
    + constructor; simpl.
      * intros h' buf r Hin. apply (Hbound h' buf r []); [intros ? []|exact Hin].
      * exact Hh.
      * rewrite Hready, Hdev. split; [discriminate|].
        intros (h' & Hs & Hin). inversion Hs; subst h'. exfalso.
        apply (Hfail []); [intros ? []|exact Hin].
    + constructor; simpl.
      * intros h' buf r Hin.
        apply (Hbound h' buf r [Emitted_error e]); [|exact Hin].
        intros e0 [<-|[]]. exact I.
      * exact Hh.
      * rewrite Hready, Hdev. split; [discriminate|].
        intros (h' & Hs & Hin). inversion Hs; subst h'. exfalso.
        apply (Hfail [Emitted_error e]); [|exact Hin].
        intros e0 [<-|[]]. exact I.
  - constructor; simpl.
    + intros h' buf r Hin. apply (Hbound h' buf r []); [intros ? []|exact Hin].
    + exact Hh.
    + rewrite Hdev. split; [|reflexivity].
      intros _. exists h. split; [reflexivity|]. now left.
Qed.

Lemma ready_inv_settle (w : env) (s : state) :
  ready_inv s -> ready_inv (snd (settle w s)).
Proof.
  intros Hinv. unfold settle.
  destruct (bootstrap_device s) as [h|] eqn:Hdev; [|exact Hinv].
  destruct (device_ready s) eqn:Hready; [exact Hinv|].
  apply ready_inv_woke; assumption.
Qed.

Lemma ready_inv_bootstrap_body (c : config) (w : env) (s : state) :
  ready_inv s -> ready_inv (snd (bootstrap_body c w s)).
Proof.
  intros Hinv. rewrite bootstrap_body_eq.
  set (s0 := if stale c w s then invalidated s else s).
  assert (H0 : ready_inv s0).
  { subst s0. destruct (stale c w s); [apply ready_inv_invalidated|];
      exact Hinv. }
  cbv zeta. destruct (bootstrap_device s0) as [h|] eqn:Hdev.
  - apply ready_inv_settle. exact H0.
  - pose proof (discover_searched w s0 Hdev) as Hs.
    destruct (discover w s0) as [[[]|e] s1]; simpl in Hs;
      destruct (ready_inv_searched _ _ _ _ H0 Hdev Hs) as [H1 _].
    + apply ready_inv_settle. exact H1.
    + exact H1.
Qed.

Lemma ready_inv_rearmed (c : config) (s : state) :
  ready_inv s -> ready_inv (rearmed c s).
Proof.
  intros H.
  apply (ready_inv_frame s (rearmed c s) [Armed (update_delay c)]); auto.
  constructor; [exact I | constructor].
Qed.

Lemma ready_inv_bootstrap (c : config) (w : env) (s : state) :
  ready_inv s -> ready_inv (snd (bootstrap c w s)).
Proof.
  intros H. rewrite bootstrap_eq. simpl.
  apply ready_inv_rearmed, ready_inv_bootstrap_body, H.
Qed.

Lemma ready_inv_process_data (t : Z) (data : list Z) (s : state) :
  ready_inv s -> ready_inv (snd (process_data t data s)).
Proof.
  intros Hinv.
  destruct (nth_error data CommandMeaning.position_info) as [m|] eqn:H3.
  - destruct (Z.eq_dec m CommandMeaning.type_battery_status) as [->|Hne].
    + destruct (nth_error data CommandMeaning.position_battery) as [b|] eqn:H7.
      * destruct (option_Z_eqb (battery_status s) (Some b)) eqn:E.
        -- apply option_Z_eqb_eq in E.
           rewrite (process_data_same t data s b H3 H7 E). simpl.
           apply (ready_inv_frame s _ []); auto.
        -- apply option_Z_eqb_neq in E.
           rewrite (process_data_changed t data s b H3 H7 E). simpl.
           apply (ready_inv_frame s _ [Emitted_battery_status b]); auto.
           constructor; [exact I | constructor].
      * rewrite (process_data_no_battery t data s H3 H7). exact Hinv.
    + rewrite (process_data_other_type t data s m H3 Hne). exact Hinv.
  - rewrite (process_data_no_info t data s H3). exact Hinv.
Qed.

Lemma ready_inv_read_and_process (w : env) (s : state) :
  ready_inv s -> ready_inv (snd (read_and_process w s)).
Proof.
  intros Hinv. unfold read_and_process. unfold_py.
  destruct (bootstrap_device s) as [h|] eqn:Hdev; [|exact Hinv].
  simpl.
  assert (Hread : ready_inv (record (ReadFrom h 20) s)).
  { apply (ready_inv_frame s _ [ReadFrom h 20]); auto.
    constructor; [exact I | constructor]. }
  destruct (read w) as [e|data].
  - destruct (is_OSError e); simpl; [|exact Hread].
    apply (ready_inv_drop s _ [ReadFrom h 20]); auto.
    constructor; [exact I | constructor].
  - destruct data as [|b0 data]; [exact Hread|].
    apply ready_inv_process_data. exact Hread.
Qed.

Lemma ready_inv_after (p : pc) (r : res unit * state) :
  ready_inv (snd r) -> ready_inv (snd (after p r)).
Proof. destruct r as [[[]|e] s]; simpl; auto. Qed.

Lemma ready_inv_resume (wr : env) (s : state) :
  ready_inv s -> ready_inv (snd (resume wr s)).
Proof.
  intros H. unfold resume. destruct (device_ready s); [|exact H].
  apply ready_inv_after, ready_inv_read_and_process, H.
Qed.

Lemma ready_inv_run_step (c : config) (wb wr : env) (p : pc) (s : state) :
  ready_inv s -> ready_inv (snd (run_step c wb wr p s)).
Proof.
  intros H. unfold run_step. destruct p.
  - destruct (device_ready s); exact H.
  - destruct (bootstrap_device s).
    + apply ready_inv_after, ready_inv_read_and_process, H.
    + pose proof (ready_inv_bootstrap c wb s H) as Hb.
      destruct (bootstrap c wb s) as [[[]|e] s1]; simpl in Hb.
      * apply ready_inv_resume, Hb.
      * exact Hb.
  - apply ready_inv_resume, H.
  - exact H.
Qed.

Lemma ready_inv_sys_step (c : config) (i : input) (ps : pc * state) :
  ready_inv (snd ps) -> ready_inv (snd (sys_step c i ps)).
Proof.
  intros H. destruct i as [w|wb wr]; simpl.
  - apply ready_inv_bootstrap, H.
  - apply ready_inv_run_step, H.
Qed.

Lemma ready_inv_sys_run (c : config) (inputs : list input) :
  forall ps, ready_inv (snd ps) -> ready_inv (snd (sys_run c inputs ps)).
Proof.
  unfold sys_run.
  induction inputs as [|i inputs IH]; intros ps H; simpl; [exact H|].
  apply IH, ready_inv_sys_step, H.
Qed.

Lemma ready_inv_blank : ready_inv blank.
Proof.
  constructor; simpl.
  - intros h buf r [].
  - discriminate.
  - split; [discriminate|]. intros (h & Hs & _). discriminate.
Qed.

Lemma ready_inv_start (c : config) (w0 w : env) :
  ready_inv (snd (start c w0 w)).
Proof.
  unfold start. apply ready_inv_after. unfold init. unfold_py. simpl.
  apply ready_inv_bootstrap.
  apply (ready_inv_frame blank _ [Enumerated VENDOR_ID PRODUCT_ID]);
    auto using ready_inv_blank.
  constructor; [exact I | constructor].
Qed.

Lemma reachable_ready_inv (c : config) (ps : pc * state) :
  reachable c ps -> ready_inv (snd ps).
Proof.
  intros (w0 & w & inputs & ->).
  apply ready_inv_sys_run, ready_inv_start.
Qed.

(** ** What one run of [bootstrap] does *)

Lemma woke_log (w : env) (h : handle) (s : state) :
  log (woke w h s) = wake_effects w h ++ log s.
Proof.
  unfold woke, wake_effects. destruct (write w) as [e|]; [|reflexivity].
  destruct (is_OSError e); reflexivity.
Qed.

Lemma woke_fields (w : env) (h : handle) (s : state) :
  devices (woke w h s) = devices s
  /\ bootstrap_device (woke w h s) = bootstrap_device s
  /\ interval (woke w h s) = interval s
  /\ battery_status (woke w h s) = battery_status s
  /\ app_battery_status (woke w h s) = app_battery_status s
  /\ last_battery_update_at (woke w h s) = last_battery_update_at s
  /\ next_handle (woke w h s) = next_handle s.
Proof.
  unfold woke. destruct (write w) as [e|]; [destruct (is_OSError e)|];
    simpl; repeat split.
Qed.

Lemma settle_acquired (w : env) (s : state) :
  acquired w s (fst (settle w s)) (snd (settle w s))
  /\ next_handle (snd (settle w s)) = next_handle s
  /\ log (snd (settle w s))
     = match bootstrap_device s with
       | Some h => if device_ready s then log s else wake_effects w h ++ log s
       | None => log s
       end.
Proof.
  unfold settle.
  assert (Hrefl : acquired w s (Ok tt) s).
  { constructor; try reflexivity.
    exists [], []. repeat split; auto; discriminate. }
  destruct (bootstrap_device s) as [h|] eqn:Hdev; [|auto].
  destruct (device_ready s); [auto|]. simpl.
  destruct (woke_fields w h s) as (Hd & Hb & Hi & Hbs & Ha & Hl & Hn).
  split; [|split; [exact Hn | apply woke_log]].
  constructor; try assumption.
  - intros _. exact Hd.
  - exists [], (wake_effects w h). simpl. rewrite woke_log.
    split; [reflexivity|]. split; [constructor|]. split; [reflexivity|].
    split.
    + right. exists h. rewrite Hb. auto.
    + intros e He. right.
      destruct (wake_result_raise w e He) as (e0 & Hw & Hos & Hemit).
      exists h, e0. auto.
Qed.

Lemma acquire_acquired (w : env) (s : state) :
  let run := match bootstrap_device s with
             | Some _ => settle w s
             | None =>
                 match discover w s with
                 | (Ok _, s1) => settle w s1
                 | (Raise e, s1) => (Raise e, s1)
                 end
             end in
  acquired w s (fst run) (snd run).
Proof.
  cbv zeta. destruct (bootstrap_device s) as [h|] eqn:Hdev.
  - pose proof (settle_acquired w s) as [H _]. exact H.
  - pose proof (discover_searched w s Hdev) as Hs.
    pose proof (discover_devices w s) as Hds.
    destruct (discover w s) as [r s1]. simpl in Hs, Hds.
    destruct Hs as [Hi Hb Ha Hl Hr Hn (d & Hd & Hall & Hex) Hdv].
    assert (Hkeep : devices s <> [] -> devices s1 = devices s).
    { intros Hne. rewrite Hds. destruct (devices s); [contradiction|reflexivity]. }
    destruct r as [[]|e].
    + destruct (settle_acquired w s1) as ([Hi' Hb' Ha' Hl' Hd' Hlog'] & Hn' & Hlg).
      destruct Hlog' as (ds' & dw & Hlog' & _ & _ & Hdw & Hraise).
      constructor; try congruence.
      * intros Hne. rewrite <- (Hkeep Hne). apply Hd'.
        rewrite (Hkeep Hne). exact Hne.
      * assert (Hshape : exists dw', log (snd (settle w s1)) = dw' ++ log s1
                  /\ (dw' = []
                      \/ exists h, bootstrap_device (snd (settle w s1)) = Some h
                                   /\ dw' = wake_effects w h
                                   /\ fst (settle w s1) = wake_result w)
                  /\ forall e, fst (settle w s1) = Raise e ->
                       exists h e0, dw' = wake_effects w h
                                    /\ write w = Some e0
                                    /\ is_OSError e0 = false
                                    /\ emit_error w e0 = Some e).
        { unfold settle in *. destruct (bootstrap_device s1) as [h|] eqn:Hdev1.
          - destruct (device_ready s1).
            + exists []. split; [exact Hlg|]. split; [now left|].
              discriminate.
            + exists (wake_effects w h). simpl. split; [exact Hlg|]. split.
              * right. exists h. destruct (woke_fields w h s1) as (_ & Hbd & _).
                rewrite Hbd. auto.
              * intros e He.
                destruct (wake_result_raise w e He) as (e0 & Hw & Hos & Hemit).
                exists h, e0. auto.
          - exists []. split; [exact Hlg|]. split; [now left|]. discriminate. }
        destruct Hshape as (dw' & Hlog2 & Hdw2 & Hraise2).
        exists d, dw'. rewrite Hlog2, Hd.
        split; [reflexivity|]. split.
        { rewrite Hn'. exact Hall. }
        split; [congruence|]. split; [exact Hdw2|].
        intros e He. right. exact (Hraise2 e He).
    + simpl. constructor; try assumption.
      exists d, []. simpl. split; [exact Hd|]. split; [exact Hall|].
      split; [congruence|]. split; [now left|].
      intros e0 He0. destruct (Hex e0 He0) as (Hos & Hin).
      left. auto.
Qed.

Lemma bootstrap_acquired (c : config) (w : env) (s : state) :
  acquired w (if stale c w s then invalidated s else s)
    (fst (bootstrap_body c w s)) (snd (bootstrap_body c w s)).
Proof. rewrite bootstrap_body_eq. apply acquire_acquired. Qed.

Lemma wake_effects_no_enumeration (w : env) (h : handle) :
  enumerations (wake_effects w h) = 0%nat.
Proof.
  unfold wake_effects. destruct (write w) as [e|]; [|reflexivity].
  destruct (is_OSError e); reflexivity.
Qed.

(** ** The cached descriptors *)

Section Cached.

Variable c : config.

Lemma bootstrap_cached (w : env) (s : state) :
  devices s <> [] ->
  devices (snd (bootstrap c w s)) = devices s
  /\ enumerations (log (snd (bootstrap c w s))) = enumerations (log s).
Proof.
  intros Hne. rewrite bootstrap_eq. cbn [snd].
  pose proof (bootstrap_acquired c w s) as H.
  set (s0 := if stale c w s then invalidated s else s) in *.
  assert (Hd0 : devices s0 = devices s) by (subst s0; destruct (stale c w s); reflexivity).
  assert (Hl0 : log s0 = log s) by (subst s0; destruct (stale c w s); reflexivity).
  destruct H as [_ _ _ _ Hdev (ds & dw & Hlog & Hall & _ & Hdw & _)].
  rewrite Hd0 in *. split.
  - simpl. apply Hdev. exact Hne.
  - unfold rearmed. simpl log. unfold enumerations at 1. simpl filter.
    fold (enumerations (log (snd (bootstrap_body c w s)))).
    rewrite Hlog, Hl0, !enumerations_app.
    assert (Hnil : is_nil (devices s) = false)
      by (destruct (devices s); [contradiction | reflexivity]).
    rewrite Hnil in Hall. rewrite (searching_no_enumeration _ _ _ Hall).
    destruct Hdw as [->|(h & _ & -> & _)]; [reflexivity|].
    rewrite wake_effects_no_enumeration. reflexivity.
Qed.

Lemma process_data_cached (t : Z) (data : list Z) (s : state) :
  devices (snd (process_data t data s)) = devices s
  /\ enumerations (log (snd (process_data t data s))) = enumerations (log s).
Proof.
  destruct (nth_error data CommandMeaning.position_info) as [m|] eqn:H3.
  - destruct (Z.eq_dec m CommandMeaning.type_battery_status) as [->|Hm].
    + destruct (nth_error data CommandMeaning.position_battery) as [b|] eqn:H7.
      * destruct (option_Z_eqb (battery_status s) (Some b)) eqn:E.
        -- apply option_Z_eqb_eq in E.
           rewrite (process_data_same t data s b H3 H7 E). split; reflexivity.
        -- apply option_Z_eqb_neq in E.
           rewrite (process_data_changed t data s b H3 H7 E).
           split; reflexivity.
      * rewrite (process_data_no_battery t data s H3 H7). split; reflexivity.
    + rewrite (process_data_other_type t data s m H3 Hm). split; reflexivity.
  - rewrite (process_data_no_info t data s H3). split; reflexivity.
Qed.

Lemma read_and_process_cached (w : env) (s : state) :
  devices (snd (read_and_process w s)) = devices s
  /\ enumerations (log (snd (read_and_process w s))) = enumerations (log s).
Proof.
  unfold read_and_process. unfold_py.
  destruct (bootstrap_device s) as [h|]; [|split; reflexivity]. simpl.
  destruct (read w) as [e|data].
  - destruct (is_OSError e); split; reflexivity.
  - destruct data as [|b0 data]; [split; reflexivity|].
    apply (process_data_cached (now w) (b0 :: data) (record (ReadFrom h 20) s)).
Qed.

Lemma after_snd (p : pc) (r : res unit * state) : snd (after p r) = snd r.
Proof. destruct r as [[[]|e] s]; reflexivity. Qed.

Lemma resume_cached (wr : env) (s : state) :
  devices (snd (resume wr s)) = devices s
  /\ enumerations (log (snd (resume wr s))) = enumerations (log s).
Proof.
  unfold resume. destruct (device_ready s); [|split; reflexivity].
  rewrite after_snd. apply read_and_process_cached.
Qed.

Lemma run_step_cached (wb wr : env) (p : pc) (s : state) :
  devices s <> [] ->
  devices (snd (run_step c wb wr p s)) = devices s
  /\ enumerations (log (snd (run_step c wb wr p s))) = enumerations (log s).
Proof.
  intros Hne. unfold run_step. destruct p.
  - destruct (device_ready s); split; reflexivity.
  - destruct (bootstrap_device s).
    + rewrite after_snd. apply read_and_process_cached.
    + destruct (bootstrap_cached wb s Hne) as [Hd Hl].
      destruct (bootstrap c wb s) as [[[]|e] s1]; simpl in Hd, Hl.
      * destruct (resume_cached wr s1) as [Hd1 Hl1].
        split; congruence.
      * split; assumption.
  - apply resume_cached.
  - split; reflexivity.
Qed.

Lemma sys_step_cached (i : input) (ps : pc * state) :
  devices (snd ps) <> [] ->
  devices (snd (sys_step c i ps)) = devices (snd ps)
  /\ enumerations (log (snd (sys_step c i ps))) = enumerations (log (snd ps)).
Proof.
  intros Hne. destruct i as [w|wb wr]; simpl.
  - apply bootstrap_cached, Hne.
  - apply run_step_cached, Hne.
Qed.

Lemma discover_enumerations (w : env) (s : state) :
  bootstrap_device s = None ->
  enumerations (log (snd (discover w s)))
  = (enumerations (log s) + if is_nil (devices s) then 1 else 0)%nat.
Proof.
  intros Hdev. unfold discover. unfold_py.
  destruct (devices s) as [|d0 ds] eqn:Hds; simpl.
  - match goal with
    | |- context [open_first w ?l ?m] =>
        pose proof (open_first_searched w l m Hdev) as H;
        destruct (open_first w l m) as [r s']
    end.
    simpl in *. destruct H as [_ _ _ _ _ _ (d & Hd & Hall & _) _].
    simpl in Hd. rewrite Hd, enumerations_app.
    rewrite (searching_no_enumeration _ _ _ Hall).
    unfold enumerations. simpl. lia.
  - rewrite Hds.
    pose proof (open_first_searched w (d0 :: ds) s Hdev) as H.
    destruct H as [_ _ _ _ _ _ (d & Hd & Hall & _) _].
    rewrite Hd, enumerations_app.
    rewrite (searching_no_enumeration _ _ _ Hall). lia.
Qed.

Lemma settle_enumerations (w : env) (s : state) :
  enumerations (log (snd (settle w s))) = enumerations (log s).
Proof.
  destruct (settle_acquired w s) as (_ & _ & Hlog). rewrite Hlog.
  destruct (bootstrap_device s) as [h|]; [|reflexivity].
  destruct (device_ready s); [reflexivity|].
  rewrite enumerations_app, wake_effects_no_enumeration. reflexivity.
Qed.

(** A tick enumerates exactly when it searches with an empty list of cached
    descriptors, and then once. *)
Lemma tick_enumerations (w : env) (s : state) :
  enumerations (log (snd (bootstrap c w s)))
  = (enumerations (log s)
     + if searches c w s && is_nil (devices s) then 1 else 0)%nat.
Proof.
  rewrite bootstrap_eq. cbn [snd].
  assert (Harm : forall s1, enumerations (log (rearmed c s1))
                            = enumerations (log s1)) by reflexivity.
  rewrite Harm, bootstrap_body_eq. cbv zeta. unfold searches.
  set (s0 := if stale c w s then invalidated s else s).
  assert (Hd0 : devices s0 = devices s)
    by (subst s0; destruct (stale c w s); reflexivity).
  assert (Hl0 : log s0 = log s)
    by (subst s0; destruct (stale c w s); reflexivity).
  assert (Hsearch : (stale c w s
                     || match bootstrap_device s with
                        | None => true
                        | Some _ => false
                        end)
                    = match bootstrap_device s0 with
                      | None => true
                      | Some _ => false
                      end).
  { subst s0. destruct (stale c w s); [reflexivity|].
    destruct (bootstrap_device s); reflexivity. }
  rewrite Hsearch.
  destruct (bootstrap_device s0) as [h|] eqn:Hdev.
  - rewrite settle_enumerations, Hl0. simpl. lia.
  - pose proof (discover_enumerations w s0 Hdev) as He.
    rewrite Hd0, Hl0 in He.
    destruct (discover w s0) as [[[]|e] s1]; simpl in He |- *.
    + rewrite settle_enumerations. exact He.
    + exact He.
Qed.

(** C10. Once the cached list of descriptors is non-empty, no operation
    (timer tick or move of the read loop, whatever the outside world does:
    failed reads, stale readings, failed openings) replaces it or runs
    another enumeration: after any sequence of operations the list is the
    same and the number of enumerations performed is the same. *)
Theorem C10_enumeration_only_when_empty (inputs : list input) :
  forall ps : pc * state,
  devices (snd ps) <> [] ->
  devices (snd (sys_run c inputs ps)) = devices (snd ps)
  /\ enumerations (log (snd (sys_run c inputs ps)))
     = enumerations (log (snd ps)).
Proof.
  unfold sys_run.
  induction inputs as [|i inputs IH]; intros ps Hne; simpl;
    [split; reflexivity|].
  destruct (sys_step_cached i ps Hne) as [Hd Hl].
  destruct (IH (sys_step c i ps)) as [Hd' Hl'].
  - rewrite Hd. exact Hne.
  - split; congruence.
Qed.

End Cached.

Lemma C10_enumeration_only_when_empty_witness :
  devices (snd plugged_in) <> []
  /\ devices (snd (sys_run default_config eventful plugged_in))
     = devices (snd plugged_in)
  /\ enumerations (log (snd (sys_run default_config eventful plugged_in)))
     = enumerations (log (snd plugged_in)).
Proof.
  assert (H : devices (snd plugged_in) <> []) by (vm_compute; discriminate).
  split; [exact H|].
  exact (C10_enumeration_only_when_empty default_config eventful plugged_in H).
Defined.

(** The eventful run went through an unplugging and a staleness reset, and
    enumerated once in all (in [__init__]). *)
Example eventful_run :
  enumerations (log (snd (sys_run default_config eventful plugged_in))) = 1%nat
  /\ bootstrap_device (snd (sys_run default_config eventful plugged_in))
     = Some 2%nat
  /\ battery_status_route (snd (sys_run default_config eventful plugged_in))
     = unknown.
Proof. vm_compute. repeat split. Qed.

(** ** Readiness *)

(** What the end of [bootstrap]'s body does to readiness: it is set
    afterwards only if it was set before, or the wake command was written
    without error to the handle the body ends with. *)
Lemma acquire_readiness (w : env) (s : state) :
  let run := match bootstrap_device s with
             | Some _ => settle w s
             | None =>
                 match discover w s with
                 | (Ok _, s1) => settle w s1
                 | (Raise e, s1) => (Raise e, s1)
                 end
             end in
  device_ready (snd run) = true ->
  device_ready s = true
  \/ exists h d,
      bootstrap_device (snd run) = Some h
      /\ log (snd run) = Wrote h wake_buffer None :: d ++ log s
      /\ Forall no_write d.
Proof.
  cbv zeta.
  assert (Hsettle : forall s1 d,
             device_ready s1 = device_ready s ->
             log s1 = d ++ log s ->
             Forall no_write d ->
             device_ready (snd (settle w s1)) = true ->
             device_ready s = true
             \/ exists h d0,
                 bootstrap_device (snd (settle w s1)) = Some h
                 /\ log (snd (settle w s1))
                    = Wrote h wake_buffer None :: d0 ++ log s
                 /\ Forall no_write d0).
  { intros s1 d Hready Hlog Hd. unfold settle.
    destruct (bootstrap_device s1) as [h|] eqn:Hdev; simpl.
    - destruct (device_ready s1) eqn:Hr1; simpl.
      + intros _. left. congruence.
      + unfold woke. destruct (write w) as [e|] eqn:Hw.
        * destruct (is_OSError e); simpl; congruence.
        * simpl. intros _. right. exists h, d.
          split; [exact Hdev|]. split; [|exact Hd].
          rewrite Hlog. reflexivity.
    - intros H. left. congruence. }
  destruct (bootstrap_device s) as [h|] eqn:Hdev.
  - apply (Hsettle s []); auto.
  - pose proof (discover_searched w s Hdev) as Hs.
    destruct (discover w s) as [r s1]. simpl in Hs.
    destruct Hs as [_ _ _ _ Hr _ (d & Hd & Hall & _) _].
    destruct r as [[]|e].
    + apply (Hsettle s1 d Hr Hd). exact (searching_no_write _ _ _ d Hall).
    + simpl. intros H. left. congruence.
Qed.

(** A tick, started in any state: readiness is set at its end only if it
    was set at its start and the reading was not stale, or the tick itself
    wrote the wake command without error to the handle it ends with. *)
Lemma tick_readiness (c : config) (w : env) (s : state) :
  device_ready (snd (bootstrap c w s)) = true ->
  (stale c w s = false /\ device_ready s = true)
  \/ exists h d,
      bootstrap_device (snd (bootstrap c w s)) = Some h
      /\ log (snd (bootstrap c w s))
         = Armed (update_delay c) :: Wrote h wake_buffer None :: d ++ log s
      /\ Forall no_write d.
Proof.
  rewrite bootstrap_eq, bootstrap_body_eq. cbv zeta. simpl.
  intros Hready.
  pose proof (acquire_readiness w (if stale c w s then invalidated s else s)
                Hready) as [H | (h & d & Hdev & Hlog & Hd)].
  - left. destruct (stale c w s); [discriminate H | auto].
  - right. exists h, d. split; [exact Hdev|]. split; [|exact Hd].
    rewrite Hlog. destruct (stale c w s); reflexivity.
Qed.

(** A tick that starts with a handle keeps it unless the reading is stale. *)
Lemma tick_keeps_handle (c : config) (w : env) (h : handle) (s : state) :
  bootstrap_device s = Some h ->
  stale c w s = false ->
  bootstrap_device (snd (bootstrap c w s)) = Some h.
Proof.
  intros Hdev Hfresh. rewrite bootstrap_eq, bootstrap_body_eq, Hfresh.
  cbv zeta. rewrite Hdev. simpl. unfold settle. rewrite Hdev.
  destruct (device_ready s); [exact Hdev|]. simpl.
  destruct (woke_fields w h s) as (_ & Hb & _). rewrite Hb. exact Hdev.
Qed.

(** [process_data] touches neither the handle nor readiness. *)
Lemma process_data_keeps_device (t : Z) (data : list Z) (s : state) :
  bootstrap_device (snd (process_data t data s)) = bootstrap_device s
  /\ device_ready (snd (process_data t data s)) = device_ready s.
Proof.
  destruct (nth_error data CommandMeaning.position_info) as [m|] eqn:H3.
  - destruct (Z.eq_dec m CommandMeaning.type_battery_status) as [->|Hm].
    + destruct (nth_error data CommandMeaning.position_battery) as [b|] eqn:H7.
      * destruct (option_Z_eqb (battery_status s) (Some b)) eqn:E.
        -- apply option_Z_eqb_eq in E.
           rewrite (process_data_same t data s b H3 H7 E). split; reflexivity.
        -- apply option_Z_eqb_neq in E.
           rewrite (process_data_changed t data s b H3 H7 E).
           split; reflexivity.
      * rewrite (process_data_no_battery t data s H3 H7). split; reflexivity.
    + rewrite (process_data_other_type t data s m H3 Hm). split; reflexivity.
  - rewrite (process_data_no_info t data s H3). split; reflexivity.
Qed.

(** The read and what follows it: the handle is kept, or dropped together
    with readiness. *)
Lemma read_and_process_device (w : env) (s : state) :
  (bootstrap_device (snd (read_and_process w s)) = bootstrap_device s
   /\ device_ready (snd (read_and_process w s)) = device_ready s)
  \/ (bootstrap_device (snd (read_and_process w s)) = None
      /\ device_ready (snd (read_and_process w s)) = false).
Proof.
  unfold read_and_process. unfold_py.
  destruct (bootstrap_device s) as [h|] eqn:Hdev; [|left; auto]. simpl.
  destruct (read w) as [e|data].
  - destruct (is_OSError e); simpl; [right | left]; auto.
  - destruct data as [|b0 data]; [left; auto|].
    destruct (process_data_keeps_device (now w) (b0 :: data)
                (record (ReadFrom h 20) s)) as [Hb Hr].
    left. rewrite Hb, Hr. auto.
Qed.

(** The state in which a timer fires between lines 156 and 157 of [run]:
    the loop has dropped the handle and not cleared readiness yet.  The
    tick finds no handle, opens the device again and, readiness being set,
    returns before the wake write: it ends with readiness set on a handle
    nothing was ever written to. *)
Lemma C6_tick_between_drop_and_clear :
  fine_reachable default_config handle_just_dropped
  /\ fst handle_just_dropped = Dropping
  /\ bootstrap_device (snd handle_just_dropped) = None
  /\ device_ready (snd handle_just_dropped) = true
  /\ tick_in_the_window
     = fine_step default_config (Tick (calm 6)) handle_just_dropped
  /\ log (snd tick_in_the_window)
     = Armed 300 :: Opened 1%nat "path-1" None
         :: log (snd handle_just_dropped)
  /\ device_ready (snd tick_in_the_window) = true
  /\ bootstrap_device (snd tick_in_the_window) = Some 1%nat
  /\ ~ woken 1%nat (log (snd tick_in_the_window))
  /\ ~ (device_ready (snd tick_in_the_window) = true
        -> exists h, bootstrap_device (snd tick_in_the_window) = Some h
                     /\ woken h (log (snd tick_in_the_window))).
Proof.
  assert (Hnot : ~ woken 1%nat (log (snd tick_in_the_window))).
  { unfold woken. vm_compute. intros H.
    repeat (destruct H as [H|H]; [discriminate H|]). exact H. }
  split.
  { exists (calm 0), (calm 0),
      [Loop (calm 1) (calm 1); Loop (calm 5) (world 5 None None (inl OSError))].
    reflexivity. }
  do 7 (split; [vm_compute; reflexivity|]).
  split; [exact Hnot|].
  intros H. destruct (H eq_refl) as (h & Hdev & Hw).
  change (Some 1%nat = Some h) in Hdev. injection Hdev as <-.
  exact (Hnot Hw).
Qed.

(** C6. As long as the operations (timer ticks, iterations of the read
    loop) do not overlap, in every state the process reaches the readiness
    signal is set if and only if there is a device handle and the wake
    command was written to that very handle without error, and a state
    without handle has the signal cleared.  Nothing locks the threads, and
    this much holds of each operation taken alone, from any state:
    a tick ends with the signal set only if it was set (and the reading
    not stale) when the tick began, or the tick itself wrote the wake
    command without error to the handle it ends with; a tick that begins
    with a handle and ends without one ends with the signal cleared, and so
    does an iteration of the loop; the thread of [run] drops a handle only
    at line 156, and its next statement, line 157, clears the signal. *)
Theorem C6_ready_iff_woken_handle (c : config) :
  (forall ps : pc * state,
      reachable c ps ->
      (device_ready (snd ps) = true
       <-> exists h, bootstrap_device (snd ps) = Some h
                     /\ woken h (log (snd ps)))
      /\ (bootstrap_device (snd ps) = None -> device_ready (snd ps) = false))
  /\ (forall (w : env) (s : state),
        device_ready (snd (bootstrap c w s)) = true ->
        (stale c w s = false /\ device_ready s = true)
        \/ exists h d,
            bootstrap_device (snd (bootstrap c w s)) = Some h
            /\ log (snd (bootstrap c w s))
               = Armed (update_delay c) :: Wrote h wake_buffer None
                   :: d ++ log s
            /\ Forall no_write d)
  /\ (forall (w : env) (s : state) (h : handle),
        bootstrap_device s = Some h ->
        bootstrap_device (snd (bootstrap c w s)) = None ->
        stale c w s = true
        /\ device_ready (snd (bootstrap c w s)) = false)
  /\ (forall (wb wr : env) (p : pc) (s : state) (h : handle),
        bootstrap_device s = Some h ->
        bootstrap_device (snd (run_step c wb wr p s)) = None ->
        device_ready (snd (run_step c wb wr p s)) = false)
  /\ (forall (wb wr : env) (pt : point) (s : state) (h : handle),
        bootstrap_device s = Some h ->
        bootstrap_device (snd (run_statement c wb wr pt s)) = None ->
        fst (run_statement c wb wr pt s) = Dropping)
  /\ (forall (wb wr : env) (s : state),
        run_statement c wb wr Dropping s
        = (Between AtLoopTop, set_device_ready false s)).
Proof.
  split.
  { intros ps Hreach.
    pose proof (reachable_ready_inv c ps Hreach) as Hinv.
    split; [exact (ri_ready _ Hinv)|].
    apply ready_inv_unready_without_handle. exact Hinv. }
  split; [exact (tick_readiness c)|].
  split.
  { intros w s h Hdev Hnone.
    destruct (stale c w s) eqn:Hstale.
    - split; [reflexivity|].
      destruct (device_ready (snd (bootstrap c w s))) eqn:Hready;
        [|reflexivity].
      destruct (tick_readiness c w s Hready)
        as [[Hfresh _] | (h' & _ & Hdev' & _)]; congruence.
    - rewrite (tick_keeps_handle c w h s Hdev Hstale) in Hnone.
      discriminate. }
  split.
  { intros wb wr p s h Hdev. unfold run_step.
    assert (Hread : bootstrap_device (snd (read_and_process wr s)) = None ->
                    device_ready (snd (read_and_process wr s)) = false).
    { destruct (read_and_process_device wr s) as [[Hb _]|[_ Hr]];
        [congruence | auto]. }
    destruct p; simpl.
    - destruct (device_ready s); simpl; congruence.
    - rewrite Hdev, after_snd. exact Hread.
    - unfold resume. destruct (device_ready s); simpl; [|congruence].
      rewrite after_snd. exact Hread.
    - congruence. }
  split.
  { intros wb wr pt s h Hdev.
    assert (Hread : bootstrap_device (snd (read_and_start wr s)) = None ->
                    fst (read_and_start wr s) = Dropping).
    { unfold read_and_start. rewrite Hdev.
      destruct (read wr) as [e|data].
      - destruct (is_OSError e); simpl; [reflexivity | congruence].
      - destruct data as [|b0 data]; [simpl; congruence|].
        destruct (nth_error (b0 :: data) CommandMeaning.position_info)
          as [info|]; [|simpl; congruence].
        destruct (info =? CommandMeaning.type_battery_status);
          [|simpl; congruence].
        destruct (nth_error (b0 :: data) CommandMeaning.position_battery);
          simpl; congruence. }
    destruct pt as [p| |b prev|b|b]; simpl.
    - destruct p; simpl.
      + destruct (device_ready s); simpl; congruence.
      + rewrite Hdev. exact Hread.
      + unfold wait_then_read. destruct (device_ready s); simpl;
          [exact Hread | congruence].
      + congruence.
    - congruence.
    - destruct (option_Z_eqb prev (battery_status s)); simpl; congruence.
    - congruence.
    - congruence. }
  intros wb wr s. reflexivity.
Qed.

(** ** The scheduler tick *)





Lemma wake_effects_failure (w : env) (h h' : handle) (buf : list Z) (e : exn) :
  In (Wrote h' buf (Some e)) (wake_effects w h) ->
  is_OSError e = false ->
  In (Emitted_error e) (wake_effects w h) /\ write w = Some e.
Proof.
  unfold wake_effects. destruct (write w) as [e0|].
  - destruct (is_OSError e0) eqn:Hos; simpl.
    + intros [Heq|[]] He. inversion Heq; subst. congruence.
    + intros [Heq|[Heq|[]]] _; [discriminate|].
      inversion Heq; subst. split; [now left | reflexivity].
  - simpl. intros [Heq|[]]. discriminate.
Qed.

Lemma searching_not_emitted (fresh : bool) (lo hi : nat) (d : list effect)
    (e : exn) :
  Forall (searching fresh lo hi) d -> ~ In (Emitted_error e) d.
Proof.
  intros Hall Hin. rewrite Forall_forall in Hall. exact (Hall _ Hin).
Qed.

(** C7, as stated, fails: an opening that raises something other than
    [OSError] is a failure during [bootstrap] that no [error] event reports;
    the exception leaves [bootstrap] (the timer is armed all the same). *)
Lemma C7_opening_failure_not_emitted :
  let w := world 0 (Some (OtherError 7)) None (inr []) in
  let r := bootstrap default_config w blank in
  In (Opened 0%nat "path-1" (Some (OtherError 7))) (log (snd r))
  /\ ~ In (Emitted_error (OtherError 7)) (log (snd r))
  /\ fst r = Raise (OtherError 7)
  /\ hd_error (log (snd r)) = Some (Armed 300).
Proof.
  cbv zeta. vm_compute. split; [right; left; reflexivity|].
  split; [|split; reflexivity].
  intros [H|[H|[H|[]]]]; discriminate.
Qed.

(** C7, amended. Every run of [bootstrap], whatever its outcome, ends by
    arming the timer with the delay [update_delay] (the 300 s of the
    default): it is the newest effect, after everything else the run did.
    A failure of the wake write other than [OSError] is handed to
    [emit('error', e)]; [bootstrap] then returns normally if [emit]
    returns, and raises what [emit] raises otherwise (an [error] event
    without listener is raised by the library, and the program registers
    no listener).  An exception that leaves [bootstrap] is either one an
    opening raised, not an [OSError] and handed to no [emit], or one
    [emit] raised for a failed wake write; in both cases the timer is
    armed before it propagates. *)
Theorem C7_rearm_always (c : config) (w : env) (s : state) :
  update_delay default_config = 300
  /\ interval (snd (bootstrap c w s)) = Some (update_delay c)
  /\ exists d,
      log (snd (bootstrap c w s)) = Armed (update_delay c) :: d ++ log s
      /\ (forall h buf e,
             In (Wrote h buf (Some e)) d -> is_OSError e = false ->
             In (Emitted_error e) d
             /\ fst (bootstrap c w s)
                = match emit_error w e with
                  | None => Ok tt
                  | Some e' => Raise e'
                  end)
      /\ (forall e,
             fst (bootstrap c w s) = Raise e ->
             (is_OSError e = false
              /\ (exists h p, In (Opened h p (Some e)) d)
              /\ forall e0, ~ In (Emitted_error e0) d)
             \/ (exists h e0,
                   In (Wrote h wake_buffer (Some e0)) d
                   /\ is_OSError e0 = false
                   /\ In (Emitted_error e0) d
                   /\ emit_error w e0 = Some e)).
Proof.
  split; [reflexivity|].
  rewrite bootstrap_eq. cbn [fst snd]. split; [reflexivity|].
  pose proof (bootstrap_acquired c w s) as H.
  set (s0 := if stale c w s then invalidated s else s) in *.
  assert (Hl0 : log s0 = log s)
    by (subst s0; destruct (stale c w s); reflexivity).
  destruct H as [_ _ _ _ _ (ds & dw & Hlog & Hall & _ & Hdw & Hraise)].
  exists (dw ++ ds). simpl. rewrite Hlog, Hl0, app_assoc.
  split; [reflexivity|]. split.
  - intros h buf e Hin Hos. apply in_app_or in Hin.
    destruct Hin as [Hin|Hin].
    + destruct Hdw as [->|(h' & _ & -> & Hok)]; [destruct Hin|].
      destruct (wake_effects_failure w h' h buf e Hin Hos) as [Hem Hw].
      split; [apply in_or_app; left; exact Hem|].
      rewrite Hok. unfold wake_result. rewrite Hw, Hos. reflexivity.
    + exfalso. apply searching_no_write in Hall.
      exact (no_write_not_in _ _ _ _ Hall Hin).
  - intros e He.
    destruct (Hraise e He)
      as [(Hos & -> & h & p & Hin)|(h & e0 & -> & Hw & Hos & Hemit)].
    + left. split; [exact Hos|]. split.
      * exists h, p. exact Hin.
      * intros e0. simpl. eapply searching_not_emitted. exact Hall.
    + right. exists h, e0.
      assert (Heff : wake_effects w h
                     = [Emitted_error e0; Wrote h wake_buffer (Some e0)]).
      { unfold wake_effects. rewrite Hw, Hos. reflexivity. }
      rewrite Heff.
      split; [right; now left|].
      split; [exact Hos|].
      split; [now left | exact Hemit].
Qed.

(** A wake write failing with something other than [OSError], in the
    program as it is (no listener for [error]): the event is handed to
    [emit], which raises; the exception leaves [bootstrap], readiness stays
    cleared, the handle stays and the timer is armed. *)
Example wake_failure_reaches_emit :
  let w := world 0 None (Some (OtherError 3)) (inr []) in
  let r := bootstrap default_config w blank in
  fst r = Raise (OtherError 3)
  /\ log (snd r)
     = [Armed 300; Emitted_error (OtherError 3);
        Wrote 0%nat wake_buffer (Some (OtherError 3));
        Opened 0%nat "path-1" None; Enumerated VENDOR_ID PRODUCT_ID]
  /\ device_ready (snd r) = false
  /\ bootstrap_device (snd r) = Some 0%nat.
Proof. repeat split. Qed.

(** ** The read loop *)

(** A failed read followed by one more move of the loop: the loop itself
    runs [bootstrap], which re-opens the device under a new handle. *)
Example read_failure_recovers :
  let unplugged := world 5 None None (inl OSError) in
  let ps1 := sys_run default_config
               [Loop (calm 1) (calm 1); Loop (calm 5) unplugged] plugged_in in
  let ps2 := sys_step default_config (Loop (calm 6) (calm 6)) ps1 in
  fst ps1 = AtLoopTop
  /\ bootstrap_device (snd ps1) = None
  /\ device_ready (snd ps1) = false
  /\ fst ps2 = AtLoopTop
  /\ bootstrap_device (snd ps2) = Some 1%nat
  /\ device_ready (snd ps2) = true.
Proof. vm_compute. repeat split. Qed.

(** ** Failure of the wake write *)

(** A wake write that fails with [OSError] leaves the handle in place. *)
Lemma failed_wake_leaves_handle (c : config) (w : env) (h : handle)
    (s : state) :
  bootstrap_device s = Some h ->
  device_ready s = false ->
  stale c w s = false ->
  write w = Some OSError ->
  bootstrap c w s
  = (Ok tt, rearmed c (record (Wrote h wake_buffer (Some OSError)) s)).
Proof.
  intros Hdev Hready Hfresh Hwrite.
  rewrite bootstrap_eq, bootstrap_body_eq, Hfresh. cbv zeta.
  rewrite Hdev. unfold settle. rewrite Hdev, Hready. unfold woke, wake_result.
  rewrite Hwrite. reflexivity.
Qed.

(** With a handle in place and the reading not stale, a tick searches
    nothing: it writes the wake command to the handle it has. *)
Lemma tick_reuses_handle (c : config) (w : env) (h : handle) (s : state) :
  bootstrap_device s = Some h ->
  device_ready s = false ->
  stale c w s = false ->
  log (snd (bootstrap c w s))
  = Armed (update_delay c) :: wake_effects w h ++ log s.
Proof.
  intros Hdev Hready Hfresh.
  rewrite bootstrap_eq, bootstrap_body_eq, Hfresh. cbv zeta.
  rewrite Hdev. unfold settle. rewrite Hdev, Hready. simpl.
  rewrite woke_log. reflexivity.
Qed.

(** C4: the code at the failing input.  The headset is found and opened at
    start-up (handle 0) and the wake write raises [OSError]: the handle is
    still in place afterwards, and the next tick neither enumerates nor
    opens anything but writes to handle 0 again. *)
Theorem C4_wake_failure_keeps_handle :
  log (snd wake_failed)
  = [Armed 300; Wrote 0%nat wake_buffer (Some OSError);
     Opened 0%nat "path-1" None; Enumerated VENDOR_ID PRODUCT_ID]
  /\ bootstrap_device (snd wake_failed) = Some 0%nat
  /\ device_ready (snd wake_failed) = false
  /\ log (snd (sys_step default_config (Tick (calm 300)) wake_failed))
     = Armed 300 :: Wrote 0%nat wake_buffer None :: log (snd wake_failed).
Proof. repeat split. Qed.

(** ** Staleness *)

(** A tick on a stale reading clears the value the HTTP handler serves and
    searches again: the handle it ends with, if any, is a new one.  The
    object's own copy of the reading stays. *)
Lemma stale_tick_invalidates (c : config) (w : env) (s : state) :
  stale c w s = true ->
  battery_status_route (snd (bootstrap c w s)) = unknown
  /\ battery_status (snd (bootstrap c w s)) = battery_status s
  /\ last_battery_update_at (snd (bootstrap c w s)) = last_battery_update_at s
  /\ (bootstrap_device (snd (bootstrap c w s)) = None
      \/ exists h, bootstrap_device (snd (bootstrap c w s)) = Some h
                   /\ (next_handle s <= h)%nat).
Proof.
  intros Hstale. rewrite bootstrap_eq. cbn [snd].
  pose proof (bootstrap_acquired c w s) as H. rewrite Hstale in H.
  destruct H as [_ Hb Ha Hl _ _].
  unfold battery_status_route. simpl. rewrite Ha, Hb, Hl. simpl.
  split; [reflexivity|]. split; [reflexivity|]. split; [reflexivity|].
  rewrite bootstrap_body_eq, Hstale. cbv zeta. simpl bootstrap_device.
  pose proof (discover_searched w (invalidated s) eq_refl) as Hs.
  destruct (discover w (invalidated s)) as [r s1]. simpl in Hs.
  destruct Hs as [_ _ _ _ _ _ _ Hdv]. simpl in Hdv.
  assert (Hsettle : bootstrap_device (snd (settle w s1)) = bootstrap_device s1).
  { unfold settle. destruct (bootstrap_device s1) as [h|] eqn:E; [|exact E].
    destruct (device_ready s1); [exact E|]. simpl.
    destruct (woke_fields w h s1) as (_ & Hbd & _). congruence. }
  destruct r as [[]|e]; [rewrite Hsettle|simpl].
  - destruct Hdv as [Hn|(h & Hh & Hr)]; [now left|].
    right. exists h. split; [exact Hh | lia].
  - destruct Hdv as [Hn|(h & Hh & Hr)]; [now left|].
    right. exists h. split; [exact Hh | lia].
Qed.

(** After an invalidation a battery frame with a reading other than the
    object's own copy makes the HTTP handler answer that reading. *)
Lemma new_reading_restores (t p : Z) (f : list Z) (s : state) :
  nth_error f CommandMeaning.position_info
    = Some CommandMeaning.type_battery_status ->
  nth_error f CommandMeaning.position_battery = Some p ->
  battery_status s <> Some p ->
  battery_status_route (snd (process_data t f s)) = percentage p.
Proof.
  intros H3 H7 Hs. rewrite (process_data_changed t f s p H3 H7 Hs).
  reflexivity.
Qed.

(** A battery frame with the reading of the object's own copy leaves the
    value the HTTP handler serves as it is. *)
Lemma same_reading_keeps_route (t p : Z) (f : list Z) (s : state) :
  nth_error f CommandMeaning.position_info
    = Some CommandMeaning.type_battery_status ->
  nth_error f CommandMeaning.position_battery = Some p ->
  battery_status s = Some p ->
  battery_status_route (snd (process_data t f s)) = battery_status_route s.
Proof.
  intros H3 H7 Hs. rewrite (process_data_same t f s p H3 H7 Hs).
  reflexivity.
Qed.

(** C3: the code at the failing input.  The headset reports 45 at time 2;
    the tick at time 1803 finds the reading stale, clears the served value
    and opens the device again (handle 1); the headset then reports 45 once
    more: the frame is processed (the time of the last update becomes 1804)
    but the HTTP handler still answers [unknown]. *)
Theorem C3_same_reading_after_invalidation :
  battery_status_route (snd reported_45) = percentage 45
  /\ stale default_config (calm 1803) (snd reported_45) = true
  /\ battery_status_route (snd gone_stale) = unknown
  /\ bootstrap_device (snd gone_stale) = Some 1%nat
  /\ device_ready (snd gone_stale) = true
  /\ battery_status (snd reported_45_again) = Some 45
  /\ last_battery_update_at (snd reported_45_again) = Some 1804
  /\ battery_status_route (snd reported_45_again) = unknown.
Proof. vm_compute. repeat split. Qed.

(** ** A run from an empty desk *)

(** No device at start-up: the handler answers [unknown].  The headset is
    then plugged in, the next tick finds and wakes it, and a frame carrying
    45 arrives: the handler answers 45 and one event, with value 45, was
    emitted. *)
Example absent_then_plugged_in :
  let nothing := mk_env 0 [] (fun _ => None) None (inr [])
                   (fun e => Some e) in
  let ps0 := start default_config nothing nothing in
  let ps1 := sys_run default_config
               [Tick (calm 300); Loop (calm 301) (calm 301); frame_at 302 45]
               ps0 in
  battery_status_route (snd ps0) = unknown
  /\ device_ready (snd ps0) = false
  /\ device_ready (snd ps1) = true
  /\ battery_status_route (snd ps1) = percentage 45
  /\ filter (fun e => match e with
                      | Emitted_battery_status _ => true
                      | _ => false
                      end) (log (snd ps1))
     = [Emitted_battery_status 45].
Proof. vm_compute. repeat split. Qed.

(** * Further properties of the monitor *)

(** ** What a tick does to the reading *)

Lemma bootstrap_reading_fields (c : config) (w : env) (s : state) :
  battery_status (snd (bootstrap c w s)) = battery_status s
  /\ last_battery_update_at (snd (bootstrap c w s)) = last_battery_update_at s
  /\ app_battery_status (snd (bootstrap c w s))
     = if stale c w s then None else app_battery_status s.
Proof.
  rewrite bootstrap_eq. cbn [snd].
  pose proof (bootstrap_acquired c w s) as H.
  destruct H as [_ Hb Ha Hl _ _].
  unfold rearmed. simpl. rewrite Hb, Ha, Hl.
  destruct (stale c w s); repeat split.
Qed.

(** X1. A run of [bootstrap] never changes the object's own reading nor the time
    of the last update; the served reading is cleared when the reading is
    stale and is left alone otherwise. *)
Theorem bootstrap_keeps_reading (c : config) (w : env) (s : state) :
  battery_status (snd (bootstrap c w s)) = battery_status s
  /\ last_battery_update_at (snd (bootstrap c w s)) = last_battery_update_at s
  /\ app_battery_status (snd (bootstrap c w s))
     = if stale c w s then None else app_battery_status s.
Proof. exact (bootstrap_reading_fields c w s). Qed.

(** X2. Staleness persists: [bootstrap] does not touch the time of the last
    update, so once a tick has found the reading stale, every later tick
    (the clock not running backwards, no battery frame arriving in between)
    finds it stale again, searches again and serves [unknown]. *)
Theorem stale_until_next_frame (c : config) (w w' : env) (ws : list env)
    (s : state) :
  stale c w s = true ->
  Forall (fun v => now w <= now v) (w' :: ws) ->
  stale c w' (ticks c (w :: ws) s) = true
  /\ searches c w' (ticks c (w :: ws) s) = true
  /\ battery_status_route (ticks c (w :: ws) s) = unknown.
Proof.
  intros Hstale Hclock.
  assert (Hlast : forall vs s0,
             last_battery_update_at (ticks c vs s0)
             = last_battery_update_at s0).
  { induction vs as [|v vs IH]; intros s0; simpl; [reflexivity|].
    unfold ticks in *. simpl. rewrite IH.
    apply (bootstrap_reading_fields c v s0). }
  assert (Hlater : forall v s0,
             last_battery_update_at s0 = last_battery_update_at s ->
             now w <= now v -> stale c v s0 = true).
  { intros v s0 Hs0 Hv. unfold stale in *. rewrite Hs0.
    destruct (last_battery_update_at s) as [t|]; [|discriminate].
    apply Z.ltb_lt in Hstale. apply Z.ltb_lt. lia. }
  assert (Hserved : forall vs s0,
             last_battery_update_at s0 = last_battery_update_at s ->
             app_battery_status s0 = None ->
             Forall (fun v => now w <= now v) vs ->
             app_battery_status (ticks c vs s0) = None).
  { induction vs as [|v vs IH]; intros s0 Hs0 Hnone Hall; [exact Hnone|].
    unfold ticks in *. simpl. inversion Hall; subst.
    destruct (bootstrap_reading_fields c v s0) as (_ & Hl & Ha).
    apply IH; [congruence| |assumption].
    rewrite Ha. destruct (stale c v s0); [reflexivity | exact Hnone]. }
  inversion Hclock as [|? ? Hw' Hws]; subst.
  assert (Hst : stale c w' (ticks c (w :: ws) s) = true).
  { apply Hlater; [apply Hlast | exact Hw']. }
  split; [exact Hst|]. split.
  - unfold searches. rewrite Hst. reflexivity.
  - unfold battery_status_route.
    replace (app_battery_status (ticks c (w :: ws) s)) with (@None Z);
      [reflexivity|].
    symmetry. unfold ticks. simpl.
    destruct (bootstrap_reading_fields c w s) as (_ & Hl & Ha).
    apply (Hserved ws); [exact Hl| |exact Hws].
    rewrite Ha, Hstale. reflexivity.
Qed.

Lemma stale_until_next_frame_witness :
  stale default_config (calm 1803) (snd reported_45) = true
  /\ Forall (fun v => now (calm 1803) <= now v) [calm 2403; calm 2103]
  /\ battery_status_route
       (ticks default_config [calm 1803; calm 2103] (snd reported_45))
     = unknown.
Proof.
  assert (H1 : stale default_config (calm 1803) (snd reported_45) = true)
    by reflexivity.
  assert (H2 : Forall (fun v => now (calm 1803) <= now v)
                 [calm 2403; calm 2103]).
  { repeat constructor; simpl; lia. }
  split; [exact H1|]. split; [exact H2|].
  apply (stale_until_next_frame default_config (calm 1803) (calm 2403)
           [calm 2103] (snd reported_45) H1 H2).
Defined.

(** ** The search: which descriptor is opened *)

Lemma open_first_outcome (w : env) (ds : list device_info) :
  forall s, bootstrap_device s = None ->
  search_outcome w ds (Ok tt) (fst (open_first w ds s))
    (bootstrap_device (snd (open_first w ds s)))
    (log (snd (open_first w ds s))).
Proof.
  induction ds as [|device rest IH]; intros s Hdev; simpl.
  - apply NotFound; auto.
  - fold (matching device).
    destruct (matching device) eqn:Hm.
    + unfold_py. simpl.
      destruct (open_path w (path device)) as [e|] eqn:Hopen.
      * destruct (is_OSError e) eqn:Hos; simpl.
        -- match goal with
           | |- context [open_first w rest ?m] =>
               specialize (IH m eq_refl);
               destruct (open_first w rest m) as [r s']
           end.
           simpl in *.
           assert (Hrefused : refused w device).
           { intros _. exists e. auto. }
           destruct IH as [Hall Hr Hd
                          |pre post d h Hds Hpre Hmd Hod Hr Hd Hin
                          |pre post d h e0 Hds Hpre Hmd Hod Hos0 Hr Hd Hin].
           ++ apply NotFound; auto.
           ++ apply (Found w _ _ _ _ _ (device :: pre) post d h); auto.
              simpl. congruence.
           ++ apply (Broken w _ _ _ _ _ (device :: pre) post d h e0); auto.
              simpl. congruence.
        -- apply (Broken w _ _ _ _ _ [] rest device (next_handle s) e); auto.
           now left.
      * simpl.
        apply (Found w _ _ _ _ _ [] rest device (next_handle s)); auto.
        now left.
    + specialize (IH s Hdev).
      assert (Hrefused : refused w device).
      { intros Hm'. congruence. }
      destruct IH as [Hall Hr Hd
                     |pre post d h Hds Hpre Hmd Hod Hr Hd Hin
                     |pre post d h e0 Hds Hpre Hmd Hod Hos0 Hr Hd Hin].
      * apply NotFound; auto.
      * apply (Found w _ _ _ _ _ (device :: pre) post d h); auto.
        simpl. congruence.
      * apply (Broken w _ _ _ _ _ (device :: pre) post d h e0); auto.
        simpl. congruence.
Qed.

Lemma discover_outcome (w : env) (s : state) :
  bootstrap_device s = None ->
  search_outcome w (devices (snd (discover w s))) (Ok tt) (fst (discover w s))
    (bootstrap_device (snd (discover w s))) (log (snd (discover w s))).
Proof.
  intros Hdev. rewrite discover_devices. unfold discover. unfold_py.
  destruct (devices s) as [|d0 ds] eqn:Hds; simpl.
  - match goal with
    | |- context [open_first w ?l ?m] =>
        exact (open_first_outcome w l m Hdev)
    end.
  - rewrite Hds. exact (open_first_outcome w (d0 :: ds) s Hdev).
Qed.

Lemma settle_keeps (w : env) (s : state) :
  fst (settle w s)
  = match bootstrap_device s with
    | Some _ => if device_ready s then Ok tt else wake_result w
    | None => Ok tt
    end
  /\ devices (snd (settle w s)) = devices s
  /\ bootstrap_device (snd (settle w s)) = bootstrap_device s
  /\ forall e, In e (log s) -> In e (log (snd (settle w s))).
Proof.
  unfold settle. destruct (bootstrap_device s) as [h|] eqn:Hdev; [|auto].
  destruct (device_ready s); [auto|]. simpl.
  destruct (woke_fields w h s) as (Hd & Hb & _).
  repeat split; try congruence.
  intros e Hin. rewrite woke_log. apply in_or_app. now right.
Qed.

(** X3. A run of [bootstrap] that searches (stale reading or no handle) goes
    through the cached descriptors in order and stops at the first
    telemetry interface whose opening does not raise [OSError]: either
    every telemetry interface refused, no handle is left and [bootstrap]
    returns; or the handle left is the one opened on the first that did
    not refuse, and [bootstrap] ends as the wake attempt that follows ends
    (it returns, unless the write fails with another exception and [emit]
    raises); or that opening raised another exception, which leaves
    [bootstrap] with the unopened handle still in place. *)
Theorem search_stops_at_first_openable (c : config) (w : env) (s : state) :
  searches c w s = true ->
  search_outcome w (devices (snd (bootstrap c w s))) (after_opening c w s)
    (fst (bootstrap c w s))
    (bootstrap_device (snd (bootstrap c w s))) (log (snd (bootstrap c w s))).
Proof.
  intros Hsearch. rewrite bootstrap_eq, bootstrap_body_eq. cbv zeta.
  set (s0 := if stale c w s then invalidated s else s).
  assert (Hdev : bootstrap_device s0 = None).
  { subst s0. unfold searches in Hsearch.
    destruct (stale c w s); [reflexivity|].
    destruct (bootstrap_device s); [discriminate | reflexivity]. }
  assert (Hready : (if device_ready s0 then Ok tt else wake_result w)
                   = after_opening c w s).
  { subst s0. unfold after_opening. destruct (stale c w s); reflexivity. }
  rewrite Hdev. pose proof (discover_outcome w s0 Hdev) as H.
  pose proof (discover_searched w s0 Hdev) as Hs.
  destruct (discover w s0) as [r s1]. cbn [fst snd] in H, Hs.
  destruct Hs as [_ _ _ _ Hr1 _ _ _].
  destruct (settle_keeps w s1) as (Hres & Hd & Hb & Hl).
  destruct H as [Hall Hr Hn
                |pre post d h Hds Hpre Hmd Hod Hr Hn Hin
                |pre post d h e0 Hds Hpre Hmd Hod Hos0 Hr Hn Hin]; subst r.
  - cbn [fst snd]. apply NotFound.
    + simpl. rewrite Hd. exact Hall.
    + rewrite Hres, Hn. reflexivity.
    + simpl. rewrite Hb. exact Hn.
  - cbn [fst snd]. apply (Found w _ _ _ _ _ pre post d h); auto.
    + simpl. rewrite Hd. exact Hds.
    + rewrite Hres, Hn, Hr1. exact Hready.
    + simpl. rewrite Hb. exact Hn.
    + simpl. right. apply Hl. exact Hin.
  - cbn [fst snd]. apply (Broken w _ _ _ _ _ pre post d h e0); auto.
    simpl. right. exact Hin.
Qed.

Lemma search_stops_at_first_openable_witness :
  searches default_config (calm 0) blank = true
  /\ search_outcome (calm 0)
       (devices (snd (bootstrap default_config (calm 0) blank)))
       (after_opening default_config (calm 0) blank)
       (fst (bootstrap default_config (calm 0) blank))
       (bootstrap_device (snd (bootstrap default_config (calm 0) blank)))
       (log (snd (bootstrap default_config (calm 0) blank))).
Proof.
  split; [reflexivity|].
  apply (search_stops_at_first_openable default_config (calm 0) blank).
  reflexivity.
Defined.

Lemma open_first_opened (w : env) (ds : list device_info) :
  forall s, exists d,
    log (snd (open_first w ds s)) = d ++ log s
    /\ forall e, In e d ->
         exists h dev, e = Opened h (path dev) (open_path w (path dev))
                       /\ In dev ds /\ matching dev = true.
Proof.
  induction ds as [|device rest IH]; intros s; simpl.
  - exists []. split; [reflexivity | intros e []].
  - fold (matching device). destruct (matching device) eqn:Hm.
    + unfold_py. simpl.
      assert (Hhere : forall e,
                 e = Opened (next_handle s) (path device)
                       (open_path w (path device)) ->
                 exists h dev, e = Opened h (path dev) (open_path w (path dev))
                               /\ (device = dev \/ In dev rest)
                               /\ matching dev = true).
      { intros e ->. exists (next_handle s), device. auto. }
      destruct (open_path w (path device)) as [e|] eqn:Hopen.
      * destruct (is_OSError e); simpl.
        -- match goal with
           | |- context [open_first w rest ?m] =>
               destruct (IH m) as (d & Hd & Hall)
           end.
           simpl in Hd.
           exists (d ++ [Opened (next_handle s) (path device) (Some e)]).
           rewrite <- app_assoc. split; [exact Hd|].
           intros e0 Hin. apply in_app_or in Hin.
           destruct Hin as [Hin|[<-|[]]].
           ++ destruct (Hall e0 Hin) as (h & dev & He & Hdev & Hmd).
              exists h, dev. auto.
           ++ apply Hhere. reflexivity.
        -- exists [Opened (next_handle s) (path device) (Some e)].
           split; [reflexivity|]. intros e0 [<-|[]].
           apply Hhere. reflexivity.
      * simpl. exists [Opened (next_handle s) (path device) None].
        split; [reflexivity|]. intros e0 [<-|[]].
        apply Hhere. reflexivity.
    + destruct (IH s) as (d & Hd & Hall). exists d. split; [exact Hd|].
      intros e Hin. destruct (Hall e Hin) as (h & dev & He & Hdev & Hmd).
      exists h, dev. auto.
Qed.

(** X4. Whatever a run of [bootstrap] opens is a telemetry interface (usage page
    65299, usage 1) among the cached descriptors; other interfaces of the
    product are never opened. *)
Theorem only_telemetry_is_opened (c : config) (w : env) (s : state) :
  exists d,
    log (snd (bootstrap c w s)) = d ++ log s
    /\ forall h p o, In (Opened h p o) d ->
         exists dev, In dev (devices (snd (bootstrap c w s)))
                     /\ usage_page dev = USAGE_PAGE /\ usage dev = 1
                     /\ path dev = p /\ o = open_path w p.
Proof.
  rewrite bootstrap_eq. cbn [snd].
  assert (Hsettle : forall s1 (P : effect -> Prop),
             (forall h d, In d (wake_effects w h) -> P d) ->
             exists d, log (snd (settle w s1)) = d ++ log s1
                       /\ forall e, In e d -> P e).
  { intros s1 P HP. destruct (settle_acquired w s1) as (_ & _ & Hlog).
    rewrite Hlog. destruct (bootstrap_device s1) as [h|].
    - destruct (device_ready s1).
      + exists []. split; [reflexivity | intros e []].
      + exists (wake_effects w h). split; [reflexivity|]. apply HP.
    - exists []. split; [reflexivity | intros e []]. }
  set (good := fun (ds : list device_info) (e : effect) =>
         forall h p o, e = Opened h p o ->
           exists dev, In dev ds
                       /\ usage_page dev = USAGE_PAGE /\ usage dev = 1
                       /\ path dev = p /\ o = open_path w p).
  assert (Hwake : forall ds h d, In d (wake_effects w h) -> good ds d).
  { intros ds h d Hin h' p o ->. exfalso. unfold wake_effects in Hin.
    destruct (write w) as [e|]; [destruct (is_OSError e)|]; simpl in Hin;
      repeat (destruct Hin as [Hin|Hin]; [discriminate|]); exact Hin. }
  assert (Hbody : exists d,
             log (snd (bootstrap_body c w s)) = d ++ log s
             /\ forall e, In e d ->
                  good (devices (snd (bootstrap_body c w s))) e).
  { rewrite bootstrap_body_eq. cbv zeta.
    set (s0 := if stale c w s then invalidated s else s).
    assert (Hl0 : log s0 = log s)
      by (subst s0; destruct (stale c w s); reflexivity).
    rewrite <- Hl0.
    destruct (bootstrap_device s0) as [h0|] eqn:Hdev.
    - apply Hsettle. intros h d. apply Hwake.
    - assert (Hdisc : exists d,
                 log (snd (discover w s0)) = d ++ log s0
                 /\ forall e, In e d -> good (devices (snd (discover w s0))) e).
      { rewrite discover_devices. unfold discover. unfold_py.
        destruct (devices s0) as [|d0 ds] eqn:Hds; simpl.
        - match goal with
          | |- context [open_first w ?l ?m] =>
              destruct (open_first_opened w l m) as (d & Hd & Hall)
          end.
          simpl in Hd. exists (d ++ [Enumerated VENDOR_ID PRODUCT_ID]).
          rewrite <- app_assoc. split; [exact Hd|].
          intros e Hin h p o ->. apply in_app_or in Hin.
          destruct Hin as [Hin|[Heq|[]]]; [|discriminate].
          destruct (Hall _ Hin) as (h' & dev & He & Hdev' & Hm).
          inversion He; subst. exists dev.
          unfold matching in Hm. apply andb_true_iff in Hm.
          destruct Hm as [Hp Hu]. apply Z.eqb_eq in Hp, Hu. auto.
        - rewrite Hds.
          destruct (open_first_opened w (d0 :: ds) s0) as (d & Hd & Hall).
          exists d. split; [exact Hd|].
          intros e Hin h p o ->.
          destruct (Hall _ Hin) as (h' & dev & He & Hdev' & Hm).
          inversion He; subst. exists dev.
          unfold matching in Hm. apply andb_true_iff in Hm.
          destruct Hm as [Hp Hu]. apply Z.eqb_eq in Hp, Hu. auto. }
      destruct (discover w s0) as [[[]|e] s1]; cbn [fst snd] in *.
      + destruct Hdisc as (d1 & Hd1 & Hall1).
        destruct (settle_keeps w s1) as (_ & Hdevs & _).
        destruct (Hsettle s1 (good (devices s1)))
          as (d2 & Hd2 & Hall2).
        { intros h d. apply Hwake. }
        exists (d2 ++ d1). rewrite Hd2, Hd1, app_assoc.
        split; [reflexivity|]. rewrite Hdevs.
        intros e Hin. apply in_app_or in Hin.
        destruct Hin as [Hin|Hin]; auto.
      + exact Hdisc. }
  destruct Hbody as (d & Hd & Hall).
  exists (Armed (update_delay c) :: d). simpl. rewrite Hd.
  split; [reflexivity|].
  intros h p o [Heq|Hin]; [discriminate|].
  exact (Hall _ Hin h p o eq_refl).
Qed.

(** ** Timers *)

Lemma armed_timers_app (d l : list effect) :
  armed_timers (d ++ l) = (armed_timers d + armed_timers l)%nat.
Proof. unfold armed_timers. rewrite filter_app, length_app. reflexivity. Qed.

Lemma searching_not_armed (fresh : bool) (lo hi : nat) (d : list effect) :
  Forall (searching fresh lo hi) d -> armed_timers d = 0%nat.
Proof.
  unfold armed_timers.
  intros H. induction H as [|e d He _ IH]; [reflexivity|].
  destruct e; simpl in *; try exact IH; contradiction.
Qed.

Lemma wake_effects_not_armed (w : env) (h : handle) :
  armed_timers (wake_effects w h) = 0%nat.
Proof.
  unfold wake_effects. destruct (write w) as [e|]; [|reflexivity].
  destruct (is_OSError e); reflexivity.
Qed.

Lemma bootstrap_arms_one (c : config) (w : env) (s : state) :
  armed_timers (log (snd (bootstrap c w s))) = S (armed_timers (log s)).
Proof.
  rewrite bootstrap_eq. cbn [snd].
  pose proof (bootstrap_acquired c w s) as H.
  set (s0 := if stale c w s then invalidated s else s) in *.
  assert (Hl0 : log s0 = log s)
    by (subst s0; destruct (stale c w s); reflexivity).
  destruct H as [_ _ _ _ _ (ds & dw & Hlog & Hall & _ & Hdw & _)].
  unfold rearmed. simpl log. unfold armed_timers at 1. simpl filter.
  simpl length. f_equal.
  fold (armed_timers (log (snd (bootstrap_body c w s)))).
  rewrite Hlog, Hl0, !armed_timers_app.
  rewrite (searching_not_armed _ _ _ _ Hall).
  destruct Hdw as [->|(h & _ & -> & _)]; [reflexivity|].
  rewrite wake_effects_not_armed. reflexivity.
Qed.

Lemma process_data_not_armed (t : Z) (data : list Z) (s : state) :
  armed_timers (log (snd (process_data t data s))) = armed_timers (log s).
Proof.
  destruct (nth_error data CommandMeaning.position_info) as [m|] eqn:H3.
  - destruct (Z.eq_dec m CommandMeaning.type_battery_status) as [->|Hm].
    + destruct (nth_error data CommandMeaning.position_battery) as [b|] eqn:H7.
      * destruct (option_Z_eqb (battery_status s) (Some b)) eqn:E.
        -- apply option_Z_eqb_eq in E.
           rewrite (process_data_same t data s b H3 H7 E). reflexivity.
        -- apply option_Z_eqb_neq in E.
           rewrite (process_data_changed t data s b H3 H7 E). reflexivity.
      * rewrite (process_data_no_battery t data s H3 H7). reflexivity.
    + rewrite (process_data_other_type t data s m H3 Hm). reflexivity.
  - rewrite (process_data_no_info t data s H3). reflexivity.
Qed.

Lemma read_and_process_not_armed (w : env) (s : state) :
  armed_timers (log (snd (read_and_process w s))) = armed_timers (log s).
Proof.
  unfold read_and_process. unfold_py.
  destruct (bootstrap_device s) as [h|]; [|reflexivity]. simpl.
  destruct (read w) as [e|data].
  - destruct (is_OSError e); reflexivity.
  - destruct data as [|b0 data]; [reflexivity|].
    apply (process_data_not_armed (now w) (b0 :: data)
             (record (ReadFrom h 20) s)).
Qed.

Lemma resume_not_armed (wr : env) (s : state) :
  armed_timers (log (snd (resume wr s))) = armed_timers (log s).
Proof.
  unfold resume. destruct (device_ready s); [|reflexivity].
  rewrite after_snd. apply read_and_process_not_armed.
Qed.

(** X5. Every run of [bootstrap] arms exactly one timer.  A timer tick so keeps
    the number of pending timers; a move of the read loop arms one more
    exactly when it starts an iteration without a handle, the iteration in
    which [run] calls [bootstrap] itself. *)
Theorem timers_armed_by_a_step (c : config) (i : input) (ps : pc * state) :
  armed_timers (log (snd (sys_step c i ps)))
  = (armed_timers (log (snd ps))
     + match i, fst ps, bootstrap_device (snd ps) with
       | Tick _, _, _ => 1
       | Loop _ _, AtLoopTop, None => 1
       | Loop _ _, _, _ => 0
       end)%nat.
Proof.
  destruct ps as [p s]. destruct i as [w|wb wr]; simpl.
  - rewrite bootstrap_arms_one. lia.
  - destruct p; simpl.
    + destruct (device_ready s); simpl; lia.
    + destruct (bootstrap_device s) as [h|].
      * rewrite after_snd, read_and_process_not_armed. lia.
      * pose proof (bootstrap_arms_one c wb s) as Hb.
        destruct (bootstrap c wb s) as [[[]|e] s1]; simpl in Hb |- *.
        -- rewrite resume_not_armed, Hb. lia.
        -- rewrite Hb. lia.
    + rewrite resume_not_armed. destruct (bootstrap_device s); lia.
    + destruct (bootstrap_device s); lia.
Qed.

(** ** The served reading, statement by statement *)





(** The statements of an iteration run without a tick in between are the
    iteration [run_step] takes as a whole. *)
Lemma read_to_the_end (c : config) (wb wr : env) (s : state) :
  to_the_end c wb wr (read_and_start wr s)
  = (Between (fst (after AtLoopTop (read_and_process wr s))),
     snd (after AtLoopTop (read_and_process wr s))).
Proof.
  unfold to_the_end, read_and_start, read_and_process, process_data, index.
  unfold_py.
  destruct (bootstrap_device s) as [h|]; [|reflexivity].
  destruct (read wr) as [e|data].
  - destruct (is_OSError e); reflexivity.
  - destruct data as [|b0 data]; [reflexivity|].
    destruct (nth_error (b0 :: data) CommandMeaning.position_info)
      as [info|]; [|reflexivity].
    destruct (info =? CommandMeaning.type_battery_status); [|reflexivity].
    destruct (nth_error (b0 :: data) CommandMeaning.position_battery)
      as [b|]; [|reflexivity].
    cbn [fst snd run_statement battery_status set_battery_status record].
    destruct (option_Z_eqb (battery_status s) (Some b)); reflexivity.
Qed.

Lemma wait_to_the_end (c : config) (wb wr : env) (s : state) :
  to_the_end c wb wr (wait_then_read wr s)
  = (Between (fst (resume wr s)), snd (resume wr s)).
Proof.
  unfold wait_then_read, resume.
  destruct (device_ready s); [apply read_to_the_end | reflexivity].
Qed.

Lemma iteration_without_tick (c : config) (wb wr : env) (p : pc) (s : state) :
  to_the_end c wb wr (run_statement c wb wr (Between p) s)
  = (Between (fst (run_step c wb wr p s)), snd (run_step c wb wr p s)).
Proof.
  destruct p; cbn [run_statement run_step].
  - destruct (device_ready s); reflexivity.
  - destruct (bootstrap_device s); [apply read_to_the_end|].
    destruct (bootstrap c wb s) as [[[]|e] s1];
      [apply wait_to_the_end | reflexivity].
  - apply wait_to_the_end.
  - reflexivity.
Qed.

(** Hence every state [sys_step] reaches is one [fine_step] reaches, at a
    point between two iterations. *)
Lemma to_the_end_fine_run (c : config) (wb wr : env) (x : point * state) :
  exists n, to_the_end c wb wr x = fine_run c (repeat (Loop wb wr) n) x.
Proof.
  unfold to_the_end.
  assert (Hgo : forall y : point * state,
             exists n,
               match fst y with
               | Between _ => y
               | _ => run_statement c wb wr (fst y) (snd y)
               end = fine_run c (repeat (Loop wb wr) n) y).
  { intros [pt s]. destruct pt; [exists 0%nat | exists 1%nat ..];
      reflexivity. }
  destruct (Hgo x) as (n1 & ->).
  destruct (Hgo (fine_run c (repeat (Loop wb wr) n1) x)) as (n2 & ->).
  destruct (Hgo (fine_run c (repeat (Loop wb wr) n2)
                   (fine_run c (repeat (Loop wb wr) n1) x))) as (n3 & ->).
  exists (n1 + (n2 + n3))%nat. unfold fine_run.
  rewrite !repeat_app, !fold_left_app. reflexivity.
Qed.

Lemma reachable_fine_reachable (c : config) (ps : pc * state) :
  reachable c ps -> fine_reachable c (Between (fst ps), snd ps).
Proof.
  intros (w0 & w & inputs & ->). unfold sys_run.
  induction inputs as [|i inputs IH] using rev_ind.
  - exists w0, w, []. reflexivity.
  - rewrite fold_left_app. cbn [fold_left].
    destruct IH as (w0' & w' & fine & IH).
    set (ps := fold_left (fun acc i => sys_step c i acc) inputs
                 (start c w0 w)) in *.
    destruct i as [w1|wb wr]; cbn [sys_step fst snd].
    + exists w0', w', (fine ++ [Tick w1]). unfold fine_run in *.
      rewrite fold_left_app, <- IH. reflexivity.
    + rewrite <- iteration_without_tick.
      destruct (to_the_end_fine_run c wb wr
                  (run_statement c wb wr (Between (fst ps)) (snd ps)))
        as (n & ->).
      exists w0', w', (fine ++ Loop wb wr :: repeat (Loop wb wr) n).
      unfold fine_run in *. rewrite fold_left_app, <- IH. reflexivity.
Qed.






(** The first frame after start-up, line 167 done: the object holds a
    reading and no time of an update yet, and nothing is served. *)
Example first_reading_just_assigned :
  let x := fine_run default_config [Loop (calm 1) (calm 1); frame_at 2 45]
             (fine_start default_config (calm 0) (calm 0)) in
  fst x = Assigned 45 None
  /\ battery_status (snd x) = Some 45
  /\ last_battery_update_at (snd x) = None
  /\ battery_status_route (snd x) = unknown.
Proof. vm_compute. repeat split. Qed.

(** ** After an exception has left [run] *)

Lemma reads_app (d l : list effect) :
  reads (d ++ l) = (reads d + reads l)%nat.
Proof. unfold reads. rewrite filter_app, length_app. reflexivity. Qed.

Lemma searching_not_read (fresh : bool) (lo hi : nat) (d : list effect) :
  Forall (searching fresh lo hi) d -> reads d = 0%nat.
Proof.
  unfold reads.
  intros H. induction H as [|e d He _ IH]; [reflexivity|].
  destruct e; simpl in *; try exact IH; contradiction.
Qed.

Lemma bootstrap_reads_nothing (c : config) (w : env) (s : state) :
  reads (log (snd (bootstrap c w s))) = reads (log s).
Proof.
  rewrite bootstrap_eq. cbn [snd].
  pose proof (bootstrap_acquired c w s) as H.
  set (s0 := if stale c w s then invalidated s else s) in *.
  assert (Hl0 : log s0 = log s)
    by (subst s0; destruct (stale c w s); reflexivity).
  destruct H as [_ _ _ _ _ (ds & dw & Hlog & Hall & _ & Hdw & _)].
  unfold rearmed. simpl log. unfold reads at 1. simpl filter.
  fold (reads (log (snd (bootstrap_body c w s)))).
  rewrite Hlog, Hl0, !reads_app.
  rewrite (searching_not_read _ _ _ _ Hall).
  destruct Hdw as [->|(h & _ & -> & _)]; [reflexivity|].
  unfold wake_effects. destruct (write w) as [e|]; [|reflexivity].
  destruct (is_OSError e); reflexivity.
Qed.

(** X7. Once an exception has left [run] (a truncated frame, a read failing with
    something other than [OSError]), the timer ticks go on but nothing reads
    the device any more: whatever happens afterwards, no read is performed,
    the object's reading and the time of its last update stay as they were,
    and the served reading stays or becomes [unknown]. *)
Theorem dead_loop_never_reads (c : config) (e : exn) (inputs : list input) :
  forall s : state,
  fst (sys_run c inputs (Exited e, s)) = Exited e
  /\ reads (log (snd (sys_run c inputs (Exited e, s)))) = reads (log s)
  /\ battery_status (snd (sys_run c inputs (Exited e, s))) = battery_status s
  /\ last_battery_update_at (snd (sys_run c inputs (Exited e, s)))
     = last_battery_update_at s
  /\ (battery_status_route (snd (sys_run c inputs (Exited e, s)))
      = battery_status_route s
      \/ battery_status_route (snd (sys_run c inputs (Exited e, s)))
         = unknown).
Proof.
  unfold sys_run.
  induction inputs as [|i inputs IH]; intros s; simpl.
  - repeat split. now left.
  - destruct i as [w|wb wr]; simpl.
    + destruct (IH (snd (bootstrap c w s))) as (Hpc & Hr & Hb & Hl & Ha).
      destruct (bootstrap_reading_fields c w s) as (Hb' & Hl' & Ha').
      split; [exact Hpc|]. split.
      { rewrite Hr. apply bootstrap_reads_nothing. }
      split; [congruence|]. split; [congruence|].
      destruct Ha as [Ha|Ha]; [|now right].
      rewrite Ha. unfold battery_status_route. rewrite Ha'.
      destruct (stale c w s); [now right | now left].
    + apply IH.
Qed.

(** ** The read loop after a failed read *)

(** [process_data] reads nothing. *)
Lemma process_data_reads_nothing (t : Z) (data : list Z) (s : state) :
  exists d, log (snd (process_data t data s)) = d ++ log s
            /\ reads d = 0%nat.
Proof.
  destruct (nth_error data CommandMeaning.position_info) as [m|] eqn:H3.
  - destruct (Z.eq_dec m CommandMeaning.type_battery_status) as [->|Hm].
    + destruct (nth_error data CommandMeaning.position_battery) as [b|] eqn:H7.
      * destruct (option_Z_eqb (battery_status s) (Some b)) eqn:E.
        -- apply option_Z_eqb_eq in E.
           rewrite (process_data_same t data s b H3 H7 E).
           exists []. split; reflexivity.
        -- apply option_Z_eqb_neq in E.
           rewrite (process_data_changed t data s b H3 H7 E).
           exists [Emitted_battery_status b]. split; reflexivity.
      * rewrite (process_data_no_battery t data s H3 H7).
        exists []. split; reflexivity.
    + rewrite (process_data_other_type t data s m H3 Hm).
      exists []. split; reflexivity.
  - rewrite (process_data_no_info t data s H3). exists []. split; reflexivity.
Qed.

(** With a handle, the body of the loop performs exactly one read, on that
    handle, whatever readiness is. *)
Lemma read_and_process_reads_once (w : env) (h : handle) (s : state) :
  bootstrap_device s = Some h ->
  exists d, log (snd (read_and_process w s)) = d ++ ReadFrom h 20 :: log s
            /\ reads d = 0%nat.
Proof.
  intros Hdev. unfold read_and_process. unfold_py. rewrite Hdev. simpl.
  destruct (read w) as [e|data].
  - exists []. destruct (is_OSError e); split; reflexivity.
  - destruct data as [|b0 data]; [exists []; split; reflexivity|].
    apply (process_data_reads_nothing (now w) (b0 :: data)
             (record (ReadFrom h 20) s)).
Qed.

(** After a failed read a tick re-opens the device but its wake write
    fails: the handle is there, readiness stays cleared, and the loop reads
    from the new handle without having waited for readiness.  And when the
    loop finds no handle and its own call of [bootstrap] raises (here the
    opening fails with something other than [OSError]), the exception
    leaves [run]. *)
Lemma C9_read_without_waiting :
  reachable default_config woke_badly
  /\ fst woke_badly = AtLoopTop
  /\ bootstrap_device (snd woke_badly) = Some 1%nat
  /\ device_ready (snd woke_badly) = false
  /\ log (snd woke_badly)
     = Armed 300 :: Wrote 1%nat wake_buffer (Some OSError)
         :: Opened 1%nat "path-1" None :: ReadFrom 0%nat 20
         :: log (snd plugged_in)
  /\ read_unwoken = sys_step default_config (Loop (calm 7) (calm 7)) woke_badly
  /\ log (snd read_unwoken) = ReadFrom 1%nat 20 :: log (snd woke_badly)
  /\ device_ready (snd read_unwoken) = false
  /\ fst (sys_run default_config
            [Loop (calm 1) (calm 1);
             Loop (calm 5) (world 5 None None (inl OSError));
             Loop (world 6 (Some (OtherError 0)) None (inr [])) (calm 6)]
            plugged_in)
     = Exited (OtherError 0).
Proof.
  split.
  { exists (calm 0), (calm 0),
      [Loop (calm 1) (calm 1);
       Loop (calm 5) (world 5 None None (inl OSError));
       Tick (world 6 None (Some OSError) (inr []))].
    reflexivity. }
  do 7 (split; [vm_compute; reflexivity|]).
  vm_compute. reflexivity.
Qed.

(** C9. A read that fails with [OSError] is caught: line 156 drops the
    handle, line 157 clears the readiness signal, and the iteration ends at
    the top of the loop with everything else as it was.  What the loop
    does next depends on the handle it finds there.  Without a handle it
    runs [bootstrap] itself; an exception of that call leaves [run];
    otherwise it waits on the signal, reading nothing as long as the
    signal is not set and reading as soon as it is.  With a handle (a tick
    has opened one in the meantime) it reads from it at once, whether the
    signal is set or not.  A read that returns no data ends the iteration
    with nothing changed but the record of the read itself. *)
Theorem C9_read_failure_and_timeout (c : config) (wb wr : env) (h : handle)
    (s : state) :
  bootstrap_device s = Some h ->
  (read wr = inl OSError ->
   run_statement c wb wr (Between AtLoopTop) s
   = (Dropping, set_bootstrap_device None (record (ReadFrom h 20) s))
   /\ (forall s', run_statement c wb wr Dropping s'
                  = (Between AtLoopTop, set_device_ready false s'))
   /\ run_step c wb wr AtLoopTop s = (AtLoopTop, dropped h s)
   /\ bootstrap_device (dropped h s) = None
   /\ device_ready (dropped h s) = false)
  /\ (read wr = inr [] ->
      run_step c wb wr AtLoopTop s = (AtLoopTop, record (ReadFrom h 20) s))
  /\ (forall wb' wr' s',
        bootstrap_device s' = None ->
        reads (log (snd (bootstrap c wb' s'))) = reads (log s')
        /\ (forall e,
              fst (bootstrap c wb' s') = Raise e ->
              run_step c wb' wr' AtLoopTop s'
              = (Exited e, snd (bootstrap c wb' s')))
        /\ (fst (bootstrap c wb' s') = Ok tt ->
            device_ready (snd (bootstrap c wb' s')) = false ->
            run_step c wb' wr' AtLoopTop s'
            = (AtLoopWait, snd (bootstrap c wb' s')))
        /\ (fst (bootstrap c wb' s') = Ok tt ->
            device_ready (snd (bootstrap c wb' s')) = true ->
            run_step c wb' wr' AtLoopTop s'
            = after AtLoopTop
                (read_and_process wr' (snd (bootstrap c wb' s')))))
  /\ (forall wb' wr' s',
        device_ready s' = false ->
        run_step c wb' wr' AtLoopWait s' = (AtLoopWait, s'))
  /\ (forall wb' wr' s',
        device_ready s' = true ->
        run_step c wb' wr' AtLoopWait s'
        = after AtLoopTop (read_and_process wr' s'))
  /\ (forall wb' wr' s' h',
        bootstrap_device s' = Some h' ->
        run_step c wb' wr' AtLoopTop s'
        = after AtLoopTop (read_and_process wr' s'))
  /\ (forall wr' s' h',
        bootstrap_device s' = Some h' ->
        exists d,
          log (snd (after AtLoopTop (read_and_process wr' s')))
          = d ++ ReadFrom h' 20 :: log s'
          /\ reads d = 0%nat).
Proof.
  intros Hdev. split.
  { intros Hread.
    assert (Hrp : read_and_process wr s = (Ok tt, dropped h s)).
    { unfold read_and_process. unfold_py. rewrite Hdev, Hread. reflexivity. }
    split.
    { cbn [run_statement]. rewrite Hdev. unfold read_and_start.
      rewrite Hdev, Hread. reflexivity. }
    split; [reflexivity|].
    split; [|split; reflexivity].
    unfold run_step. rewrite Hdev, Hrp. reflexivity. }
  split.
  { intros Hread. unfold run_step, read_and_process. rewrite Hdev. unfold_py.
    rewrite Hdev, Hread. reflexivity. }
  split.
  { intros wb' wr' s' Hnone.
    split; [apply bootstrap_reads_nothing|].
    unfold run_step. rewrite Hnone.
    destruct (bootstrap c wb' s') as [[[]|e0] s1]; simpl.
    - split; [discriminate|]. unfold resume.
      split; intros _ Hr; rewrite Hr; reflexivity.
    - split; [|split; discriminate].
      intros e He. inversion He. reflexivity. }
  split.
  { intros wb' wr' s' Hr. unfold run_step, resume. rewrite Hr. reflexivity. }
  split.
  { intros wb' wr' s' Hr. unfold run_step, resume. rewrite Hr. reflexivity. }
  split.
  { intros wb' wr' s' h' Hdev'. unfold run_step. rewrite Hdev'. reflexivity. }
  intros wr' s' h' Hdev'. rewrite after_snd.
  apply read_and_process_reads_once. exact Hdev'.
Qed.

Lemma C9_read_failure_and_timeout_witness :
  bootstrap_device (snd plugged_in) = Some 0%nat
  /\ (read (calm 5) = inr [] ->
      run_step default_config (calm 5) (calm 5) AtLoopTop (snd plugged_in)
      = (AtLoopTop, record (ReadFrom 0%nat 20) (snd plugged_in))).
Proof.
  split; [reflexivity|].
  exact (proj1 (proj2 (C9_read_failure_and_timeout default_config (calm 5)
                         (calm 5) 0%nat (snd plugged_in) eq_refl))).
Defined.

(** * Properties of the window helper *)

Lemma contains_empty (s : string) : contains "" s = true.
Proof.
  unfold contains. destruct (String.index 0 "" s) eqn:E; [reflexivity|].
  apply index_correct4 in E. lia.
Qed.

Lemma hide_window_snoc (ws : list window) (wd : window) (t : string)
    (f : bool) :
  hide_window (ws ++ [wd]) t f = win_enum_handler t f (hide_window ws t f) wd.
Proof. unfold hide_window. rewrite fold_left_app. reflexivity. Qed.

Lemma hide_window_calls (ws : list window) (t : string) (f : bool) :
  snd (hide_window ws t f) = flat_map (calls_for t f) ws.
Proof.
  induction ws as [|wd ws IH] using rev_ind; [reflexivity|].
  rewrite hide_window_snoc, flat_map_app. simpl. rewrite app_nil_r.
  unfold win_enum_handler, calls_for.
  destruct (contains t (window_text wd)); simpl.
  - rewrite IH. reflexivity.
  - rewrite IH, app_nil_r. reflexivity.
Qed.

(** X8. [hide_window] sends [ShowWindow] to exactly the windows whose title
    contains [in_title], in the order of enumeration: [SW_HIDE], followed at
    once by [SW_SHOW] when [actually_show_it_instead] is set.  It returns
    the handle of the last such window, and [None] exactly when no title
    contains [in_title]. *)
Theorem hide_window_last_match (ws : list window) (t : string) (f : bool) :
  snd (hide_window ws t f) = flat_map (calls_for t f) ws
  /\ (fst (hide_window ws t f) = None
      <-> Forall (fun wd => contains t (window_text wd) = false) ws)
  /\ (forall h, fst (hide_window ws t f) = Some h ->
        exists pre wd post,
          ws = pre ++ wd :: post
          /\ hwnd wd = h
          /\ contains t (window_text wd) = true
          /\ Forall (fun wd' => contains t (window_text wd') = false) post).
Proof.
  split; [apply hide_window_calls|].
  induction ws as [|wd ws IH] using rev_ind.
  - split; [split; [constructor | reflexivity]|]. intros h H. discriminate.
  - rewrite hide_window_snoc. unfold win_enum_handler.
    destruct IH as [IHn IHs].
    destruct (contains t (window_text wd)) eqn:Hc; cbn [fst].
    + split.
      * split; [discriminate|]. intros Hall.
        apply Forall_app in Hall. destruct Hall as [_ Hwd].
        inversion Hwd; subst. congruence.
      * intros h Hh. inversion Hh; subst.
        exists ws, wd, []. repeat split; auto.
    + split.
      * rewrite IHn. split.
        -- intros Hall. apply Forall_app. split; [exact Hall|].
           constructor; [exact Hc | constructor].
        -- intros Hall. apply Forall_app in Hall. tauto.
      * intros h Hh. destruct (IHs h Hh) as (pre & wd' & post & -> & H1 & H2 & H3).
        exists pre, wd', (post ++ [wd]). rewrite <- app_assoc. simpl.
        repeat split; auto. apply Forall_app. split; [exact H3|].
        constructor; [exact Hc | constructor].
Qed.

(** X9. With the empty title every window matches: [hide_window] hides all the
    windows of the desktop and returns the handle of the last one. *)
Theorem hide_window_empty_title (ws : list window) :
  snd (hide_window ws "" false) = map (fun wd => (hwnd wd, SW_HIDE)) ws
  /\ fst (hide_window ws "" false)
     = match rev ws with
       | [] => None
       | wd :: _ => Some (hwnd wd)
       end.
Proof.
  split.
  - rewrite hide_window_calls.
    induction ws as [|wd ws IH]; [reflexivity|].
    simpl. unfold calls_for at 1. rewrite contains_empty. simpl.
    rewrite IH. reflexivity.
  - induction ws as [|wd ws _] using rev_ind; [reflexivity|].
    rewrite hide_window_snoc, rev_app_distr. simpl.
    unfold win_enum_handler. rewrite contains_empty. reflexivity.
Qed.

(** * Properties of the tray icon client *)

(** ** Asking the server *)

(** X10. What the client reads is what the server holds: asked of a server in
    state [s], [get_battery_level] returns the served percentage, and -1
    when the server answers "unknown" ([int] raising [ValueError] on that
    string). *)
Theorem poll_reads_served_value (int_of_str : string -> option Z)
    (s : state) :
  int_of_str "unknown"%string = None ->
  get_battery_level int_of_str
    (Responded (jsonify_status (battery_status_route s)))
  = inr (match app_battery_status s with
         | Some p => p
         | None => -1
         end).
Proof.
  intros Hparse. unfold battery_status_route.
  destruct (app_battery_status s) as [p|]; unfold get_battery_level; simpl.
  - reflexivity.
  - rewrite Hparse. reflexivity.
Qed.

Lemma poll_reads_served_value_witness :
  digits_only "unknown"%string = None
  /\ get_battery_level digits_only
       (Responded (jsonify_status (battery_status_route (snd reported_45))))
     = inr 45.
Proof.
  split; [reflexivity|].
  apply (poll_reads_served_value digits_only (snd reported_45)).
  reflexivity.
Defined.

(** [d[key]] raises nothing but [KeyError]. *)
Lemma getitem_raises (key : string) (d : list (string * jvalue))
    (e : client_exn) :
  getitem key d = inl e -> e = KeyError key.
Proof.
  induction d as [|[k v] d IH]; simpl; intros He.
  - inversion He. reflexivity.
  - destruct (String.eqb k key); [discriminate | exact (IH He)].
Qed.

(** X11. [get_battery_level] answers -1 when the request or the decoding of
    the body raises [ConnectionError] or [ValueError] (a refused
    connection, a body that is not JSON) and when the member
    [battery_status] is a string [int] cannot parse or a NaN.  The
    exceptions that leave it are exactly these: what the request or the
    decoding raises other than those two; [TypeError] when the body is not
    a dictionary, or the member is null, a list or a dictionary;
    [KeyError] when the dictionary has no such member; [OverflowError]
    when the member is an infinite float. *)
Theorem get_battery_level_escapes (int_of_str : string -> option Z)
    (r : http_result) :
  (r = Unreachable \/ r = Failed ConnectionError \/ r = Failed ValueError ->
   get_battery_level int_of_str r = inr (-1))
  /\ (forall body s,
        r = Responded body ->
        getitem "battery_status" body = inr (JStr s) ->
        int_of_str s = None ->
        get_battery_level int_of_str r = inr (-1))
  /\ (forall body,
        r = Responded body ->
        getitem "battery_status" body = inr (JFloat NaN) ->
        get_battery_level int_of_str r = inr (-1))
  /\ (forall e,
        get_battery_level int_of_str r = inl e
        <-> (r = Failed e /\ e <> ConnectionError /\ e <> ValueError)
            \/ (e = TypeError
                /\ exists v, res_json r = inr v /\ forall d, v <> JObj d)
            \/ exists d,
                res_json r = inr (JObj d)
                /\ ((e = KeyError "battery_status"
                     /\ getitem "battery_status" d
                        = inl (KeyError "battery_status"))
                    \/ (e = TypeError
                        /\ (getitem "battery_status" d = inr JNull
                            \/ (exists items,
                                  getitem "battery_status" d
                                  = inr (JList items))
                            \/ exists members,
                                  getitem "battery_status" d
                                  = inr (JObj members)))
                    \/ (e = OverflowError
                        /\ exists negative,
                            getitem "battery_status" d
                            = inr (JFloat (Infinity negative))))).
Proof.
  split.
  { intros [->|[->| ->]]; reflexivity. }
  split.
  { intros body s -> Hitem Hparse. unfold get_battery_level. simpl.
    rewrite Hitem. simpl. rewrite Hparse. reflexivity. }
  split.
  { intros body -> Hitem. unfold get_battery_level. simpl.
    rewrite Hitem. reflexivity. }
  assert (Hdict : forall d e,
             (let attempt :=
                match getitem "battery_status" d with
                | inl e0 => inl e0
                | inr battery_level => py_int int_of_str battery_level
                end in
              match attempt with
              | inl ConnectionError => inr (-1)
              | inl ValueError => inr (-1)
              | other => other
              end) = inl e
             <-> (e = KeyError "battery_status"
                  /\ getitem "battery_status" d
                     = inl (KeyError "battery_status"))
                 \/ (e = TypeError
                     /\ (getitem "battery_status" d = inr JNull
                         \/ (exists items,
                               getitem "battery_status" d = inr (JList items))
                         \/ exists members,
                               getitem "battery_status" d
                               = inr (JObj members)))
                 \/ (e = OverflowError
                     /\ exists negative,
                         getitem "battery_status" d
                         = inr (JFloat (Infinity negative)))).
  { intros d e. cbv zeta.
    destruct (getitem "battery_status" d) as [e0|v] eqn:Hitem.
    - pose proof (getitem_raises _ _ _ Hitem) as ->. split.
      + intros H. inversion H. left. auto.
      + intros [[-> _]|[[-> [H|[[l H]|[m H]]]]|[-> [n H]]]];
          [reflexivity | discriminate H ..].
    - split.
      + destruct v as [|b|z|f|s|l|m]; simpl; intros H.
        * inversion H. right. left. auto.
        * discriminate H.
        * discriminate H.
        * destruct f as [m0 e0|n|]; simpl in H; try discriminate H.
          inversion H. right. right. split; [reflexivity|]. exists n.
          reflexivity.
        * destruct (int_of_str s); discriminate H.
        * inversion H. right. left. split; [reflexivity|].
          right. left. exists l. reflexivity.
        * inversion H. right. left. split; [reflexivity|].
          right. right. exists m. reflexivity.
      + intros [[_ H]|[[-> [H|[[l H]|[m H]]]]|[-> [n H]]]];
          try discriminate H; inversion H; reflexivity. }
  intros e. unfold get_battery_level. cbv zeta in Hdict |- *.
  destruct r as [|body|v|e0]; cbn [res_json].
  - split; [discriminate|].
    intros [[H _]|[[_ (v & H & _)]|(d & H & _)]]; discriminate H.
  - cbn [subscript]. etransitivity; [exact (Hdict body e)|]. split.
    + intros H. right. right. exists body. split; [reflexivity | exact H].
    + intros [[H _]|[[_ (v & H & Hv)]|(d & H & Hd)]].
      * discriminate H.
      * inversion H. exfalso. exact (Hv body (eq_sym H1)).
      * inversion H. exact Hd.
  - destruct v as [|b|z|f|s|l|m]; cbn [subscript];
      try (split;
           [ intros H; inversion H; right; left;
             split; [reflexivity|]; eexists; split; [reflexivity|];
             intros d Hd; discriminate Hd
           | intros [[H _]|[[-> _]|(d & H & _)]];
             [discriminate H | reflexivity | discriminate H] ]).
    etransitivity; [exact (Hdict m e)|]. split.
    + intros H. right. right. exists m. split; [reflexivity | exact H].
    + intros [[H _]|[[_ (v & H & Hv)]|(d & H & Hd)]].
      * discriminate H.
      * inversion H. exfalso. exact (Hv m (eq_sym H1)).
      * inversion H. exact Hd.
  - split.
    + intros H. left. split; [|split].
      * destruct e0; inversion H; reflexivity.
      * intros ->. destruct e0; discriminate H.
      * intros ->. destruct e0; discriminate H.
    + intros [(H & Hc & Hv)|[[_ (v & H & _)]|(d & H & _)]];
        [|discriminate H ..].
      inversion H; subst e0. destruct e; try reflexivity; contradiction.
Qed.

(** Answers the server never sends and what they do to the client. *)
Example get_battery_level_strange_answers :
  get_battery_level digits_only (Answered (JList [])) = inl TypeError
  /\ get_battery_level digits_only
       (Responded [("battery_status"%string, JList [JInt 45])])
     = inl TypeError
  /\ get_battery_level digits_only
       (Responded [("battery_status"%string, JFloat (Infinity false))])
     = inl OverflowError
  /\ get_battery_level digits_only
       (Responded [("battery_status"%string, JFloat NaN)])
     = inr (-1)
  /\ get_battery_level digits_only
       (Responded [("battery_status"%string, JFloat (Finite 91 (-1)))])
     = inr 45
  /\ get_battery_level digits_only
       (Responded [("battery_status"%string, JFloat (Finite (-91) (-1)))])
     = inr (-45)
  /\ get_battery_level digits_only (Failed (OtherException "ReadTimeout"))
     = inl (OtherException "ReadTimeout").
Proof. repeat split. Qed.

(** ** Drawing the icon *)

Section Fitting.

Variables (P : pil) (text : string) (width height : Z).

Lemma fit_text_largest :
  forall (n : nat) (fnt : option font) (tw th k : Z),
  0 < k <= Z.of_nat n ->
  fits_at P text width height k = true ->
  (forall j, k < j <= Z.of_nat n -> fits_at P text width height j = false) ->
  fit_text P text width height n fnt tw th
  = (Some (TrueType font_path k),
     fst (measure P text (TrueType font_path k)),
     snd (measure P text (TrueType font_path k))).
Proof.
  induction n as [|m IH]; intros fnt tw th k Hk Hfit Hlarger; [simpl in Hk; lia|].
  cbn [fit_text].
  destruct (Z.eq_dec k (Z.of_nat (S m))) as [->|Hne].
  - unfold fits_at in Hfit.
    apply andb_true_iff in Hfit. destruct Hfit as [Hfit Hh].
    apply andb_true_iff in Hfit. destruct Hfit as [Hload Hw].
    rewrite Hload.
    destruct (measure P text (TrueType font_path (Z.of_nat (S m))))
      as [tw' th']. simpl in Hw, Hh. rewrite Hw, Hh. reflexivity.
  - assert (Hhere : fits_at P text width height (Z.of_nat (S m)) = false)
      by (apply Hlarger; lia).
    assert (Hrec : forall fnt' tw' th',
               fit_text P text width height m fnt' tw' th'
               = (Some (TrueType font_path k),
                  fst (measure P text (TrueType font_path k)),
                  snd (measure P text (TrueType font_path k)))).
    { intros. apply IH; [lia | exact Hfit |].
      intros j Hj. apply Hlarger. lia. }
    unfold fits_at in Hhere.
    destruct (truetype_loads P font_path (Z.of_nat (S m))); [|apply Hrec].
    destruct (measure P text (TrueType font_path (Z.of_nat (S m))))
      as [tw' th']. simpl in Hhere. rewrite Hhere. apply Hrec.
Qed.

Lemma fit_text_no_font :
  forall (n : nat) (fnt : option font) (tw th : Z),
  (forall j, truetype_loads P font_path j = false) ->
  (0 < n)%nat ->
  fit_text P text width height n fnt tw th = (Some DefaultFont, tw, th).
Proof.
  induction n as [|m IH]; intros fnt tw th Hnone Hn; [lia|].
  cbn [fit_text]. rewrite Hnone.
  destruct m as [|m']; [reflexivity|]. apply IH; [exact Hnone | lia].
Qed.

Lemma fit_text_some :
  forall (n : nat) (fnt : option font) (tw th : Z),
  (0 < n)%nat ->
  exists f tw' th',
    fit_text P text width height n fnt tw th = (Some f, tw', th').
Proof.
  induction n as [|m IH]; intros fnt tw th Hn; [lia|].
  cbn [fit_text].
  assert (Hrec : forall f0 tw0 th0, exists f tw' th',
             fit_text P text width height m (Some f0) tw0 th0
             = (Some f, tw', th')).
  { intros. destruct m as [|m']; [simpl; eauto|]. apply IH. lia. }
  destruct (truetype_loads P font_path (Z.of_nat (S m))); [|apply Hrec].
  destruct (measure P text (TrueType font_path (Z.of_nat (S m))))
    as [tw' th'].
  destruct ((tw' <=? width) && (th' <=? height)); [eauto | apply Hrec].
Qed.

End Fitting.

(** X12. [create_image] draws the text in the largest size, from [height] down,
    at which the font loads and the text fits the image: if [k] is such a
    size and no larger one up to [height] is, the image carries the text in
    Arial of size [k], placed by the measures at that size, in the colour
    of the charge level. *)
Theorem create_image_largest_fitting (P : pil)
    (charge_level width height k : Z) :
  0 <= width ->
  0 < k <= height ->
  fits_at P (str charge_level) width height k = true ->
  (forall j, k < j <= height ->
             fits_at P (str charge_level) width height j = false) ->
  create_image P charge_level width height
  = inr (mk_image (width, height) (str charge_level)
           (Div (width
                 - fst (measure P (str charge_level) (TrueType font_path k)))
              2,
            Div (height
                 - snd (measure P (str charge_level) (TrueType font_path k)))
              12)
           (TrueType font_path k) (text_color charge_level)).
Proof.
  intros Hw Hk Hfit Hlarger. unfold create_image.
  assert (Hneg : (width <? 0) || (height <? 0) = false).
  { apply orb_false_iff. split; apply Z.ltb_ge; lia. }
  rewrite Hneg.
  rewrite (fit_text_largest P (str charge_level) width height
             (Z.to_nat height) None 0 0 k).
  - reflexivity.
  - rewrite Z2Nat.id; lia.
  - exact Hfit.
  - intros j Hj. apply Hlarger. rewrite Z2Nat.id in Hj; lia.
Qed.

Lemma arial_100_too_wide (j : Z) :
  43 < j <= 64 -> fits_at arial (str 100) 64 64 j = false.
Proof.
  intros Hj. unfold fits_at, measure, arial. cbn [textbbox truetype_loads fst].
  change (Z.of_nat (String.length (str 100))) with 3.
  apply andb_false_iff. left. apply andb_false_iff. right.
  apply Z.leb_gt.
  assert (66 <= 3 * j / 2) by (apply Z.div_le_lower_bound; lia).
  lia.
Qed.

Lemma create_image_largest_fitting_witness :
  0 <= 64
  /\ 0 < 43 <= 64
  /\ fits_at arial (str 100) 64 64 43 = true
  /\ (forall j, 43 < j <= 64 -> fits_at arial (str 100) 64 64 j = false)
  /\ create_image arial 100 64 64
     = inr (mk_image (64, 64) (str 100)
              (Div (64 - fst (measure arial (str 100)
                                (TrueType font_path 43))) 2,
               Div (64 - snd (measure arial (str 100)
                                (TrueType font_path 43))) 12)
              (TrueType font_path 43) (text_color 100)).
Proof.
  assert (H1 : 0 <= 64) by lia.
  assert (H2 : 0 < 43 <= 64) by lia.
  assert (H3 : fits_at arial (str 100) 64 64 43 = true) by reflexivity.
  split; [exact H1|]. split; [exact H2|]. split; [exact H3|].
  split; [exact arial_100_too_wide|].
  exact (create_image_largest_fitting arial 100 64 64 43 H1 H2 H3
           arial_100_too_wide).
Defined.

Lemma create_image_returns (P : pil) (charge_level width height : Z) :
  0 <= width -> 0 < height ->
  exists img, create_image P charge_level width height = inr img.
Proof.
  intros Hw Hh. unfold create_image.
  assert (Hneg : (width <? 0) || (height <? 0) = false).
  { apply orb_false_iff. split; apply Z.ltb_ge; lia. }
  rewrite Hneg.
  destruct (fit_text_some P (str charge_level) width height
              (Z.to_nat height) None 0 0) as (f & tw & th & ->); [lia|].
  eauto.
Qed.

(** X13. For a positive height [create_image] always returns an image; when the
    font file cannot be loaded at any size the text is drawn in the default
    font and placed as if it measured 0 by 0.  For height 0 the loop is
    never entered, the variable [font] is never bound and drawing raises
    [UnboundLocalError]. *)
Theorem create_image_edges (P : pil) (charge_level width : Z) :
  0 <= width ->
  create_image P charge_level width 0 = inl (UnboundLocalError "font")
  /\ (forall height, 0 < height ->
        exists img, create_image P charge_level width height = inr img)
  /\ (forall height, 0 < height ->
        (forall j, truetype_loads P font_path j = false) ->
        create_image P charge_level width height
        = inr (mk_image (width, height) (str charge_level)
                 (Div (width - 0) 2, Div (height - 0) 12)
                 DefaultFont (text_color charge_level))).
Proof.
  intros Hw.
  assert (Hneg : forall height, 0 <= height ->
             (width <? 0) || (height <? 0) = false).
  { intros height Hh. apply orb_false_iff. split; apply Z.ltb_ge; lia. }
  split; [|split].
  - unfold create_image. rewrite Hneg by lia. reflexivity.
  - intros height Hh. unfold create_image. rewrite Hneg by lia.
    destruct (fit_text_some P (str charge_level) width height
                (Z.to_nat height) None 0 0) as (f & tw & th & ->); [lia|].
    eauto.
  - intros height Hh Hnone. unfold create_image. rewrite Hneg by lia.
    rewrite fit_text_no_font; [reflexivity | exact Hnone | lia].
Qed.

Lemma create_image_edges_witness :
  0 <= 64
  /\ create_image no_font 45 64 0 = inl (UnboundLocalError "font").
Proof.
  assert (H : 0 <= 64) by lia.
  split; [exact H|].
  exact (proj1 (create_image_edges no_font 45 64 H)).
Defined.

(** ** One round of the loop *)

Lemma create_image_carries (P : pil) (charge_level width height : Z)
    (img : image) :
  create_image P charge_level width height = inr img ->
  image_size img = (width, height)
  /\ drawn_text img = str charge_level
  /\ fill img = text_color charge_level.
Proof.
  unfold create_image.
  destruct ((width <? 0) || (height <? 0)); [discriminate|].
  destruct (fit_text P (str charge_level) width height (Z.to_nat height)
              None 0 0) as [[[f|] tw] th]; [|discriminate].
  intros H. inversion H. repeat split.
Qed.

Lemma update_icon_visible (P : pil) (ic : tray_icon) (charge_level : Z) :
  visible (fst (update_icon P ic charge_level))
  = negb (charge_level =? -1).
Proof.
  unfold update_icon. destruct (charge_level =? -1); [reflexivity|].
  destruct (create_image P charge_level 64 64) as [e|img];
    destruct (visible ic) eqn:Hv; simpl; auto.
Qed.

Lemma update_icon_drawn (P : pil) (ic : tray_icon) (charge_level : Z) :
  charge_level <> -1 ->
  exists img,
    create_image P charge_level 64 64 = inr img
    /\ update_icon P ic charge_level
       = (mk_tray_icon true img
            (Some ("Headset Battery: " ++ str charge_level ++ "%")%string),
          None).
Proof.
  intros Hne. unfold update_icon.
  apply Z.eqb_neq in Hne. rewrite Hne.
  destruct (create_image_returns P charge_level 64 64) as (img & Himg);
    [lia | lia |].
  exists img. split; [exact Himg|]. rewrite Himg.
  destruct (visible ic) eqn:Hv; simpl; [rewrite Hv|]; reflexivity.
Qed.

(** X14. The icon is shown exactly while a charge level is known: after any
    number of rounds from start-up, whatever the server answered (and also
    if an exception ended the thread), [icon.visible] is true if and only
    if the last charge level is not -1. *)
Theorem icon_visible_iff_level_known (P : pil)
    (int_of_str : string -> option Z) (rs : list http_result) (img : image) :
  visible (tray (fst (update_rounds P int_of_str rs (first_poller img))))
  = negb (last_charge_level
            (fst (update_rounds P int_of_str rs (first_poller img))) =? -1).
Proof.
  assert (Hstep : forall r st,
             visible (tray st) = negb (last_charge_level st =? -1) ->
             visible (tray (fst (update_round P int_of_str r st)))
             = negb (last_charge_level
                       (fst (update_round P int_of_str r st)) =? -1)).
  { intros r st Hinv. unfold update_round.
    destruct (get_battery_level int_of_str r) as [e|charge]; [exact Hinv|].
    destruct (charge =? last_charge_level st); [exact Hinv|].
    pose proof (update_icon_visible P (tray st) charge) as Hv.
    destruct (update_icon P (tray st) charge) as [ic e]. exact Hv. }
  assert (Hall : forall st,
             visible (tray st) = negb (last_charge_level st =? -1) ->
             visible (tray (fst (update_rounds P int_of_str rs st)))
             = negb (last_charge_level
                       (fst (update_rounds P int_of_str rs st)) =? -1)).
  { induction rs as [|r rs IH]; intros st Hinv; [exact Hinv|].
    simpl. pose proof (Hstep r st Hinv) as H1.
    destruct (update_round P int_of_str r st) as [st1 [e|]]; [exact H1|].
    apply IH. exact H1. }
  apply Hall. reflexivity.
Qed.

(** X15. A round that reads the same level as the round before changes nothing;
    a round whose previous level is not positive (start-up, a server that
    was unreachable or answered "unknown", a level of 0) never beeps. *)
Theorem no_beep_without_previous_level (P : pil)
    (int_of_str : string -> option Z) (r : http_result) (st : poller) :
  (get_battery_level int_of_str r = inr (last_charge_level st) ->
   update_round P int_of_str r st = (st, None))
  /\ (last_charge_level st <= 0 ->
      beeps (fst (update_round P int_of_str r st)) = beeps st).
Proof.
  split.
  - intros Hget. unfold update_round. rewrite Hget, Z.eqb_refl. reflexivity.
  - intros Hlast. unfold update_round.
    destruct (get_battery_level int_of_str r) as [e|charge]; [reflexivity|].
    destruct (charge =? last_charge_level st); [reflexivity|].
    assert (Hno : should_beep (last_charge_level st) charge = false).
    { unfold should_beep.
      assert (H0 : (0 <? last_charge_level st) = false)
        by (apply Z.ltb_ge; exact Hlast).
      rewrite H0. reflexivity. }
    rewrite Hno. destruct (update_icon P (tray st) charge). reflexivity.
Qed.

(** X16. Losing the server after a positive level beeps: the test guards the
    previous level against -1 but not the new one, so the -1 that stands
    for an unreachable server counts as a drop to a very low level.  The
    icon is hidden, its picture and title stay. *)
Theorem outage_after_a_level_beeps (P : pil)
    (int_of_str : string -> option Z) (st : poller) :
  0 < last_charge_level st ->
  update_round P int_of_str Unreachable st
  = (mk_poller (-1)
       (mk_tray_icon false (icon (tray st)) (title (tray st)))
       (S (beeps st)),
     None).
Proof.
  intros Hlast. unfold update_round.
  change (get_battery_level int_of_str Unreachable)
    with (@inr client_exn Z (-1)). cbv iota beta.
  assert (Hne : (-1 =? last_charge_level st) = false)
    by (apply Z.eqb_neq; lia).
  rewrite Hne.
  assert (Hbeep : should_beep (last_charge_level st) (-1) = true).
  { unfold should_beep. apply orb_true_iff. right.
    assert (H0 : (0 <? last_charge_level st) = true) by (apply Z.ltb_lt; lia).
    assert (H1 : (-1 <? last_charge_level st) = true) by (apply Z.ltb_lt; lia).
    rewrite H0, H1. reflexivity. }
  rewrite Hbeep. reflexivity.
Qed.

Lemma outage_after_a_level_beeps_witness :
  0 < last_charge_level
        (mk_poller 50 (first_icon (mk_image (64, 64) "50" (Div 0 2, Div 0 12)
                                     DefaultFont (255, 255, 255))) 0)
  /\ beeps (fst (update_round arial digits_only Unreachable
                   (mk_poller 50
                      (first_icon (mk_image (64, 64) "50" (Div 0 2, Div 0 12)
                                     DefaultFont (255, 255, 255))) 0)))
     = 1%nat.
Proof.
  split; [reflexivity|].
  rewrite (outage_after_a_level_beeps arial digits_only
             (mk_poller 50
                (first_icon (mk_image (64, 64) "50" (Div 0 2, Div 0 12)
                               DefaultFont (255, 255, 255))) 0));
    reflexivity.
Defined.

(** X17. When a round beeps for a level the server reported, the icon drawn in
    that round has the matching colour: green after a rise (the level is at
    least 85), red after a drop (the level is at most 15). *)
Theorem beep_matches_colour (P : pil) (int_of_str : string -> option Z)
    (r : http_result) (st : poller) (charge_level : Z) :
  get_battery_level int_of_str r = inr charge_level ->
  charge_level <> -1 ->
  beeps (fst (update_round P int_of_str r st)) = S (beeps st) ->
  snd (update_round P int_of_str r st) = None
  /\ visible (tray (fst (update_round P int_of_str r st))) = true
  /\ fill (icon (tray (fst (update_round P int_of_str r st))))
     = if last_charge_level st <? charge_level
       then (102, 255, 132) else (255, 66, 88).
Proof.
  intros Hget Hne Hbeep. unfold update_round in *. rewrite Hget in *.
  destruct (charge_level =? last_charge_level st) eqn:Hsame.
  - simpl in Hbeep. lia.
  - destruct (update_icon_drawn P (tray st) charge_level Hne)
      as (img & Himg & Hupd).
    rewrite Hupd in *.
    cbn [fst snd beeps tray visible icon] in *.
    destruct (should_beep (last_charge_level st) charge_level) eqn:Hb;
      [|lia].
    split; [reflexivity|]. split; [reflexivity|].
    assert (Hfill : fill img = text_color charge_level)
      by apply (create_image_carries P charge_level 64 64 img Himg).
    rewrite Hfill. unfold should_beep in Hb. unfold text_color.
    unfold BATTERY_CHARGED_AT, BATTERY_VERY_LOW_AT, BATTERY_LOW_AT in *.
    apply orb_true_iff in Hb. destruct Hb as [Hb|Hb];
      apply andb_true_iff in Hb; destruct Hb as [Hb H3];
      apply andb_true_iff in Hb; destruct Hb as [H1 H2].
    + rewrite H2. apply Z.leb_le in H3.
      assert (E1 : (charge_level <=? 15) = false) by (apply Z.leb_gt; lia).
      assert (E2 : (charge_level <=? 30) = false) by (apply Z.leb_gt; lia).
      assert (E3 : (85 <=? charge_level) = true) by (apply Z.leb_le; lia).
      rewrite E1, E2, E3. reflexivity.
    + apply Z.ltb_lt in H2.
      assert (E0 : (last_charge_level st <? charge_level) = false)
        by (apply Z.ltb_ge; lia).
      rewrite E0, H3. reflexivity.
Qed.

Lemma beep_matches_colour_witness :
  get_battery_level digits_only (Responded (jsonify_status (percentage 10)))
  = inr 10
  /\ 10 <> -1
  /\ fill (icon (tray (fst (update_round arial digits_only
                              (Responded (jsonify_status (percentage 10)))
                              (mk_poller 50
                                 (first_icon
                                    (mk_image (64, 64) "50"
                                       (Div 0 2, Div 0 12) DefaultFont
                                       (255, 255, 255))) 0)))))
     = (255, 66, 88).
Proof.
  split; [reflexivity|]. split; [discriminate|].
  apply (beep_matches_colour arial digits_only
           (Responded (jsonify_status (percentage 10)))
           (mk_poller 50
              (first_icon (mk_image (64, 64) "50" (Div 0 2, Div 0 12)
                             DefaultFont (255, 255, 255))) 0) 10);
    [reflexivity | discriminate | reflexivity].
Defined.

(** ** From the headset to the tray *)

(** X18. A battery frame with a new reading [b], processed by the server and
    then polled by the client, ends as the icon: the round returns
    normally, the last charge level is [b], the icon is visible, shows the
    decimal text of [b] and is titled "Headset Battery: b%". *)
Theorem frame_reaches_the_tray (P : pil) (int_of_str : string -> option Z)
    (t b : Z) (f : list Z) (s : state) (st : poller) :
  nth_error f CommandMeaning.position_info
    = Some CommandMeaning.type_battery_status ->
  nth_error f CommandMeaning.position_battery = Some b ->
  battery_status s <> Some b ->
  b <> -1 ->
  b <> last_charge_level st ->
  let served := battery_status_route (snd (process_data t f s)) in
  let round := update_round P int_of_str
                 (Responded (jsonify_status served)) st in
  snd round = None
  /\ last_charge_level (fst round) = b
  /\ visible (tray (fst round)) = true
  /\ drawn_text (icon (tray (fst round))) = str b
  /\ title (tray (fst round))
     = Some ("Headset Battery: " ++ str b ++ "%")%string.
Proof.
  intros H3 H7 Hs Hb Hlast. cbv zeta.
  rewrite (new_reading_restores t b f s H3 H7 Hs).
  unfold update_round, get_battery_level. simpl.
  apply Z.eqb_neq in Hlast. rewrite Hlast.
  destruct (update_icon_drawn P (tray st) b Hb) as (img & Himg & Hupd).
  rewrite Hupd. cbn [fst snd last_charge_level tray visible icon title].
  destruct (create_image_carries P b 64 64 img Himg) as (_ & Htext & _).
  repeat split. exact Htext.
Qed.

Lemma frame_reaches_the_tray_witness :
  nth_error (sample_frame 2 45) CommandMeaning.position_info
  = Some CommandMeaning.type_battery_status
  /\ nth_error (sample_frame 2 45) CommandMeaning.position_battery = Some 45
  /\ battery_status blank <> Some 45
  /\ title (tray (fst (update_round arial digits_only
                         (Responded
                            (jsonify_status
                               (battery_status_route
                                  (snd (process_data 10 (sample_frame 2 45)
                                          blank)))))
                         (first_poller
                            (mk_image (64, 64) "-1" (Div 0 2, Div 0 12)
                               DefaultFont (255, 66, 88))))))
     = Some "Headset Battery: 45%"%string.
Proof.
  split; [reflexivity|]. split; [reflexivity|]. split; [discriminate|].
  apply (frame_reaches_the_tray arial digits_only 10 45 (sample_frame 2 45)
           blank
           (first_poller (mk_image (64, 64) "-1" (Div 0 2, Div 0 12)
                            DefaultFont (255, 66, 88))));
    [reflexivity | reflexivity | discriminate | discriminate | discriminate].
Defined.
